(** * Akita statistics calculator ([src/main.js])

    A shallow embedding of the functions that populate the Akita UI, and the
    properties stated about them.

    JavaScript numbers are IEEE 754 binary64 values; they are modelled by
    Rocq's primitive [float], whose operations are the same binary64
    operations.  Objects that may be [null] are modelled by [option].  Arrays
    live in a heap and are passed by reference, because
    [Array.prototype.sort] sorts in place.

    The file has two parts: the definitions (the embedding), then the
    theorems. *)

From Stdlib Require Import ZArith Lia Bool List String Ascii Floats.
From Stdlib Require Import Sorting.Sorted Sorting.Permutation.
From stdpp Require Import base option list sorting gmap strings.

Local Open Scope Z_scope.

(* Decimal literals such as [0.0000001] denote the nearest binary64 value, as
   they do in JavaScript. *)
#[local] Set Warnings "-inexact-float".

(* ===================================================================== *)
(** * Part 1: definitions *)
(* ===================================================================== *)

(** ** JavaScript values and built-ins *)

(** The values the calculator returns to the UI. *)
Inductive value : Type :=
| VNull
| VBool (b : bool)
| VNum (x : float)
| VStr (s : string).

(** The global [isNaN], on a number. *)
Definition isNaN (number : float) : bool := is_nan number.

(** [Number.parseFloat] applied to a number: the argument is converted to a
    string and parsed back.  The round trip returns the number itself, except
    that [-0] prints as ["0"] and so comes back as [+0]. *)
Definition Number_parseFloat (x : float) : float :=
  if is_zero x then 0%float else x.

(** The decimal digits of a natural number, most significant first, ["0"]
    for zero.  The fuel is the number of binary digits, which bounds the
    number of decimal ones. *)
Definition digit_char (d : N) : ascii := ascii_of_N (48 + d).

Fixpoint digits_acc (fuel : nat) (n : N) (acc : string) : string :=
  match fuel with
  | O => acc
  | S fuel' =>
      let acc' := String (digit_char (n mod 10)) acc in
      if (n / 10 =? 0)%N then acc' else digits_acc fuel' (n / 10) acc'
  end.

Definition digits_fuel (n : N) : nat := S (N.to_nat (N.log2 n)).

Definition decimal_digits (n : N) : string :=
  digits_acc (digits_fuel n) n EmptyString.

Fixpoint zeros (k : nat) : string :=
  match k with
  | O => EmptyString
  | S k' => String "0"%char (zeros k')
  end.

(** The integer [n] for which [n / 10^f] is closest to [m * 2^e]; the larger
    one when two are equally close ([Number.prototype.toFixed], step 11.a). *)
Definition nearest_scaled (m : positive) (e : Z) (f : nat) : Z :=
  match e with
  | Zneg k => (2 * 10 ^ Z.of_nat f * Zpos m + 2 ^ Zpos k) / 2 ^ (Zpos k + 1)
  | _ => 10 ^ Z.of_nat f * Zpos m * 2 ^ e
  end.

(** Step 11.c of [toFixed]: a decimal point before the last [f] digits of
    [m], after padding [m] with zeros on the left to [f + 1] digits. *)
Definition insert_point (m : string) (f : nat) : string :=
  match f with
  | O => m
  | _ =>
      let k := String.length m in
      let m := if (k <=? f)%nat then String.append (zeros (f + 1 - k)) m else m in
      let k := String.length m in
      String.append (substring 0 (k - f) m)
        (String.append "." (substring (k - f) f m))
  end.

(** Steps 11.b-11.c of [toFixed]: the digits of [n] with the point. *)
Definition fixed_digits (n : Z) (f : nat) : string :=
  insert_point (decimal_digits (Z.to_N n)) f.

(** ** Data model

    The records supplied by the Data Provider.  The calculator only reads
    their fields. *)

Record OriginVisitData : Type := {
  monetizedTimeSpent : float;
  numberOfVisits : float
}.

Record OriginData : Type := {
  origin : string;
  originVisitData : OriginVisitData
}.

Record OriginStats : Type := {
  totalTimeSpent : float;
  totalMonetizedTimeSpent : float;
  totalVisits : float;
  totalSentAssetsMap : option (gmap string float)
}.

(** ** Arrays

    Arrays are heap objects named by references.  A heap is a sequence of
    arrays; a reference is an index into it, and [null] is [None]. *)

Abbreviation ref := nat.
Abbreviation heap := (list (list OriginData)).

(** A new array object. *)
Definition alloc (arr : list OriginData) (h : heap) : ref * heap :=
  (length h, h ++ [arr]).

(** [SortCompare] of [Array.prototype.sort]: a comparator result that is
    not-a-number counts as [+0]. *)
Definition SortCompare {A : Type} (comparefn : A -> A -> float) (x y : A) : float :=
  let v := comparefn x y in
  if isNaN v then 0%float else v.

(** One insertion step: [x] moves right past every element it compares
    greater than. *)
Fixpoint sort_insert {A : Type} (comparefn : A -> A -> float) (x : A) (l : list A) : list A :=
  match l with
  | [] => [x]
  | y :: l' =>
      if (0 <? SortCompare comparefn x y)%float
      then y :: sort_insert comparefn x l'
      else x :: l
  end.

(** [Array.prototype.sort(comparefn)], on the array's elements.  ECMAScript
    requires a stable sort and fixes the result whenever [comparefn] is a
    consistent comparator; for other comparators the order is left to the
    engine.  The model is a stable insertion sort that calls
    [comparefn a b] with [a] the element that stood first. *)
Definition Array_sort {A : Type} (comparefn : A -> A -> float) (l : list A) : list A :=
  foldr (sort_insert comparefn) [] l.

(** [Array.prototype.slice(0, listSize)] for a count [listSize]. *)
Definition Array_slice0 {A : Type} (listSize : nat) (l : list A) : list A :=
  take listSize l.

(** ** Get Top Origins *)

(** The comparator of [getTopOriginsByTimeSpent] (lines 24-26). *)
Definition byTimeSpent (a b : OriginData) : float :=
  (monetizedTimeSpent (originVisitData b) - monetizedTimeSpent (originVisitData a))%float.

(** [getTopOriginsByTimeSpent(nTopOrigins)] (lines 15-36).  [originDataList]
    is what [await getOriginDataList()] resolved to; the function returns the
    reference it resolves to and the heap it leaves.  [nTopOrigins] is the
    number of origins to retrieve, a count. *)
Definition getTopOriginsByTimeSpent (nTopOrigins : nat) (originDataList : option ref)
    (h : heap) : option ref * heap :=
  match originDataList with
  | None => (None, h)
  | Some r =>
      match h !! r with
      | None => (None, h) (* no such array: a reference always names one *)
      | Some arr =>
          if (1 <? length arr)%nat then
            let sorted := Array_sort byTimeSpent arr in
            let h := <[r := sorted]> h in
            let listSize := Nat.min nTopOrigins (length sorted) in
            let '(topOriginsList, h) := alloc (Array_slice0 listSize sorted) h in
            (Some topOriginsList, h)
          else (Some r, h)
      end
  end.

Definition NEEDS_LOVE_MAGIC_NUMBER_MARGIN : float := 0.25%float.
Definition NEEDS_LOVE_MAGIC_NUMBER : float := 1%float.

Definition needsLoveRatio (d : OriginData) : float :=
  (monetizedTimeSpent (originVisitData d) / numberOfVisits (originVisitData d))%float.

(** The comparator of [getTopOriginsThatNeedSomeLove] (lines 72-103). *)
Definition needsLove (a b : OriginData) : float :=
  let needsLoveRatioA := needsLoveRatio a in
  let needsLoveRatioB := needsLoveRatio b in
  let ratioComparison := (needsLoveRatioA / needsLoveRatioB)%float in
  if ((NEEDS_LOVE_MAGIC_NUMBER - NEEDS_LOVE_MAGIC_NUMBER_MARGIN <=? ratioComparison)%float
      && (ratioComparison <=? NEEDS_LOVE_MAGIC_NUMBER)%float)
  then
    if (numberOfVisits (originVisitData b) <? numberOfVisits (originVisitData a))%float
    then 1%float
    else (-1)%float
  else (needsLoveRatioA - needsLoveRatioB)%float.

(** [getTopOriginsThatNeedSomeLove(nTopOrigins)] (lines 62-113). *)
Definition getTopOriginsThatNeedSomeLove (nTopOrigins : nat) (originDataList : option ref)
    (h : heap) : option ref * heap :=
  match originDataList with
  | None => (None, h)
  | Some r =>
      match h !! r with
      | None => (None, h) (* no such array: a reference always names one *)
      | Some arr =>
          if (1 <? length arr)%nat then
            let sorted := Array_sort needsLove arr in
            let h := <[r := sorted]> h in
            let listSize := Nat.min nTopOrigins (length sorted) in
            let '(topOriginsList, h) := alloc (Array_slice0 listSize sorted) h in
            (Some topOriginsList, h)
          else (Some r, h)
      end
  end.

(** [Object.keys] of an object used as a map. *)
Definition Object_keys (m : gmap string float) : list string :=
  (map_to_list m).*1.

(** [hasUsedWebMonetizationProvider(originStats)] (lines 122-128).  [a && b]
    evaluates to [a] when [a] is falsy, so a missing [originStats] or map
    gives [null], not [false]. *)
Definition hasUsedWebMonetizationProvider (originStats : option OriginStats) : value :=
  match originStats with
  | None => VNull
  | Some stats =>
      match totalSentAssetsMap stats with
      | None => VNull
      | Some m => VBool (negb (length (Object_keys m) =? 0)%nat)
      end
  end.

Section Calculator.

(** [Number::toString] for a finite value of magnitude at least [10^21]: an
    exponent notation whose last digit ECMAScript leaves to the engine.  It is
    a parameter of the model. *)
Variable Number_toString : float -> string.

(** [Number.prototype.toFixed(fractionDigits)]. *)
Definition Number_toFixed (x : float) (fractionDigits : nat) : string :=
  match Prim2SF x with
  | S754_nan => "NaN"
  | S754_infinity s => if s then "-Infinity" else "Infinity"
  | S754_zero _ => fixed_digits 0 fractionDigits
  | S754_finite s m e =>
      String.append (if s then "-" else "")
        (if (1e21 <=? abs x)%float then Number_toString (abs x)
         else fixed_digits (nearest_scaled m e fractionDigits) fractionDigits)
  end.

(** ** Payment prediction *)

Definition STREAM_RATE_PER_MILLISECOND : float := 0.0000001%float.

(** [unNaN(number)] (lines 234-236). *)
Definition unNaN (number : float) : float :=
  if isNaN number then 0%float else number.

(** [getEstimatedPaymentForOriginUSD(origin)] (lines 148-158).  [originData]
    is what [await loadOriginData(origin)] resolved to. *)
Definition getEstimatedPaymentForOriginUSD (originData : option OriginData) : value :=
  match originData with
  | Some d =>
      let monetizedTimeSpent := monetizedTimeSpent (originVisitData d) in
      VStr (Number_toFixed
              (unNaN (Number_parseFloat (monetizedTimeSpent * STREAM_RATE_PER_MILLISECOND)%float)) 2)
  | None => VNum 0%float
  end.

(** [getEstimatedPaymentForTimeInUSD(timeSpent)] (lines 166-168). *)
Definition getEstimatedPaymentForTimeInUSD (timeSpent : float) : value :=
  VStr (Number_toFixed (Number_parseFloat (timeSpent * STREAM_RATE_PER_MILLISECOND)%float) 2).

(** ** Data retrieval *)

(** [toPercent(number)] (lines 224-226). *)
Definition toPercent (number : float) : value :=
  VStr (Number_toFixed (unNaN (100 * number)%float) 2).

(** [getPercentTimeSpentAtOriginOutOfTotal] (lines 182-189). *)
Definition getPercentTimeSpentAtOriginOutOfTotal
    (originData : option OriginData) (originStats : option OriginStats) : value :=
  match originData, originStats with
  | Some d, Some stats =>
      let monetizedTimeSpent := monetizedTimeSpent (originVisitData d) in
      let totalTimeSpent := totalTimeSpent stats in
      toPercent (monetizedTimeSpent / totalTimeSpent)%float
  | _, _ => VNum 0%float
  end.

(** [getPercentVisitsToOriginOutOfTotal] (lines 199-203). *)
Definition getPercentVisitsToOriginOutOfTotal
    (originData : option OriginData) (originStats : option OriginStats) : value :=
  match originData, originStats with
  | Some d, Some stats =>
      if (totalVisits stats =? 0)%float then VNum 0%float
      else toPercent (numberOfVisits (originVisitData d) / totalVisits stats)%float
  | _, _ => VNum 0%float
  end.

(** [getMonetizedTimeSpentPercent] (lines 212-216). *)
Definition getMonetizedTimeSpentPercent (originStats : option OriginStats) : value :=
  match originStats with
  | Some stats =>
      if (totalTimeSpent stats =? 0)%float then VNum 0%float
      else toPercent (totalMonetizedTimeSpent stats / totalTimeSpent stats)%float
  | None => VNum 0%float
  end.

End Calculator.

(** ** Records and predicates of the specification *)

Definition mkOrigin (o : string) (time visits : float) : OriginData :=
  {| origin := o;
     originVisitData := {| monetizedTimeSpent := time; numberOfVisits := visits |} |}.

(** The records of the specification's examples. *)
Definition originA : OriginData := mkOrigin "a" 100 10.
Definition originB : OriginData := mkOrigin "b" 95 8.
Definition originC : OriginData := mkOrigin "c" 90 5.
Definition originD : OriginData := mkOrigin "d" 100 10.

(** The data model's constraint on a record: both numbers are non-negative
    (in particular neither is not-a-number). *)
Definition valid_origin_data (d : OriginData) : Prop :=
  (0 <=? monetizedTimeSpent (originVisitData d))%float = true /\
  (0 <=? numberOfVisits (originVisitData d))%float = true.

(** Descending order of [monetizedTimeSpent]: [y] may follow [x]. *)
Definition time_desc (x y : OriginData) : Prop :=
  (monetizedTimeSpent (originVisitData y) <=? monetizedTimeSpent (originVisitData x))%float = true.

(** ** Proof devices

    Every finite binary64 value is an integer multiple of [2 ^ emin].  [SF2Z]
    maps a value to that integer, and the infinities beyond every finite
    value; it is used only in proofs, to reason about comparisons. *)

Definition SF2Z (x : spec_float) : Z :=
  match x with
  | S754_zero _ => 0
  | S754_nan => 0
  | S754_infinity s => cond_Zopp s (2 ^ (emax - emin))
  | S754_finite s m e => cond_Zopp s (Zpos m * 2 ^ (e - emin))
  end.

Definition SFis_nan (x : spec_float) : bool :=
  match x with S754_nan => true | _ => false end.

Definition mag (m : positive) (e : Z) : Z := Zpos m * 2 ^ (e - emin).

Definition SFsigned (s : bool) (r : spec_float) : Prop :=
  match r with
  | S754_finite s' _ _ | S754_infinity s' => s' = s
  | _ => False
  end.

Definition F2Z (x : float) : Z := SF2Z (Prim2SF x).

(** The integer a time stands for, and times that are numbers. *)
Definition time_key (d : OriginData) : Z := F2Z (monetizedTimeSpent (originVisitData d)).

Definition time_is_number (d : OriginData) : Prop :=
  is_nan (monetizedTimeSpent (originVisitData d)) = false.

(** The body the two top-origin functions share, for any comparator. *)
Definition topOriginsBy (comparefn : OriginData -> OriginData -> float)
    (nTopOrigins : nat) (originDataList : option ref) (h : heap) : option ref * heap :=
  match originDataList with
  | None => (None, h)
  | Some r =>
      match h !! r with
      | None => (None, h)
      | Some arr =>
          if (1 <? length arr)%nat then
            let sorted := Array_sort comparefn arr in
            (Some (length h),
             <[r := sorted]> h ++ [take (Nat.min nTopOrigins (length sorted)) sorted])
          else (Some r, h)
      end
  end.

(** Ascending order of need ratio, the integer a need ratio stands for, and
    records whose need ratio is a number. *)
Definition ratio_asc (x y : OriginData) : Prop :=
  (needsLoveRatio x <=? needsLoveRatio y)%float = true.

Definition ratio_key (d : OriginData) : Z := F2Z (needsLoveRatio d).

Definition ratio_is_number (d : OriginData) : Prop :=
  is_nan (needsLoveRatio d) = false.

(** The closeness test of the need-love comparator (lines 80-81). *)
Definition close_ratios (a b : OriginData) : bool :=
  (0.75 <=? needsLoveRatio a / needsLoveRatio b)%float
  && (needsLoveRatio a / needsLoveRatio b <=? 1)%float.

(* ===================================================================== *)
(** * Part 2: theorems *)
(* ===================================================================== *)

(** ** Comparisons and subtraction of binary64 values

    [SF2Z] is strictly monotone on valid values, and the sign of a rounded
    difference is the sign of the exact difference: rounding never turns a
    non-zero difference of two binary64 values into zero. *)

Lemma format_consts : prec = 53 /\ emax = 1024 /\ emin = -1074.
Proof. repeat split. Qed.

Ltac fconsts := pose proof format_consts as (?Hprec & ?Hemax & ?Hemin).

Lemma pow2_succ (k : Z) : 0 <= k -> 2 ^ (k + 1) = 2 * 2 ^ k.
Proof. intros Hk. rewrite Z.pow_add_r by lia. rewrite Z.pow_1_r. ring. Qed.

Lemma digits2_pos_bounds (m : positive) :
  2 ^ (Zpos (digits2_pos m) - 1) <= Zpos m < 2 ^ Zpos (digits2_pos m).
Proof.
  induction m as [m IH | m IH |]; cbn [digits2_pos].
  - rewrite Pos2Z.inj_succ, Pos2Z.inj_xI. unfold Z.succ.
    replace (Zpos (digits2_pos m) + 1 - 1) with (Zpos (digits2_pos m) - 1 + 1) by ring.
    rewrite !pow2_succ by lia.
    revert IH. generalize (2 ^ (Z.pos (digits2_pos m) - 1)) (2 ^ Z.pos (digits2_pos m)). lia.
  - rewrite Pos2Z.inj_succ, Pos2Z.inj_xO. unfold Z.succ.
    replace (Zpos (digits2_pos m) + 1 - 1) with (Zpos (digits2_pos m) - 1 + 1) by ring.
    rewrite !pow2_succ by lia.
    revert IH. generalize (2 ^ (Z.pos (digits2_pos m) - 1)) (2 ^ Z.pos (digits2_pos m)). lia.
  - cbn. lia.
Qed.

Lemma bounded_inv m e :
  bounded prec emax m e = true ->
  emin <= e <= emax - prec /\ Zpos (digits2_pos m) <= prec /\
  (emin < e -> Zpos (digits2_pos m) = prec).
Proof.
  unfold bounded, canonical_mantissa, fexp.
  rewrite andb_true_iff, Z.eqb_eq, Z.leb_le. fconsts. lia.
Qed.



Lemma pow2_pos (k : Z) : 0 <= k -> 0 < 2 ^ k.
Proof. intros; apply Z.pow_pos_nonneg; lia. Qed.

Lemma pow2_split (a b : Z) : 0 <= a -> 0 <= b -> 2 ^ (a + b) = 2 ^ a * 2 ^ b.
Proof. intros; apply Z.pow_add_r; lia. Qed.

Lemma mag_pos m e : bounded prec emax m e = true -> 0 < mag m e.
Proof.
  intros Hb. fconsts. apply bounded_inv in Hb. unfold mag.
  apply Z.mul_pos_pos; [lia|]. apply pow2_pos; lia.
Qed.

Lemma mag_lt_inf m e : bounded prec emax m e = true -> mag m e < 2 ^ (emax - emin).
Proof.
  intros Hb. fconsts. apply bounded_inv in Hb. destruct Hb as [He [Hd _]].
  unfold mag. pose proof (digits2_pos_bounds m) as [_ Hm].
  assert (Hp : 2 ^ Zpos (digits2_pos m) <= 2 ^ prec) by (apply Z.pow_le_mono_r; lia).
  assert (Hq : 2 ^ prec * 2 ^ (e - emin) <= 2 ^ (emax - emin)).
  { rewrite <- pow2_split by lia. apply Z.pow_le_mono_r; lia. }
  assert (Hk : 0 < 2 ^ (e - emin)) by (apply pow2_pos; lia).
  revert Hm Hp Hq Hk.
  generalize (2 ^ Zpos (digits2_pos m)) (2 ^ prec) (2 ^ (e - emin)) (2 ^ (emax - emin)).
  intros; nia.
Qed.

Lemma mag_lt_exp m1 e1 m2 e2 :
  bounded prec emax m1 e1 = true -> bounded prec emax m2 e2 = true ->
  e1 < e2 -> mag m1 e1 < mag m2 e2.
Proof.
  intros H1 H2 Hlt. fconsts. apply bounded_inv in H1, H2.
  destruct H1 as [He1 [Hd1 _]]. destruct H2 as [He2 [_ Hn2]].
  specialize (Hn2 ltac:(lia)). unfold mag.
  pose proof (digits2_pos_bounds m1) as [_ Hm1].
  pose proof (digits2_pos_bounds m2) as [Hm2 _]. rewrite Hn2 in Hm2.
  assert (Hp : 2 ^ Zpos (digits2_pos m1) <= 2 * 2 ^ (prec - 1)).
  { rewrite <- pow2_succ by lia. apply Z.pow_le_mono_r; lia. }
  assert (Hq : 2 * 2 ^ (e1 - emin) <= 2 ^ (e2 - emin)).
  { rewrite <- pow2_succ by lia. apply Z.pow_le_mono_r; lia. }
  assert (Hk : 0 < 2 ^ (e1 - emin)) by (apply pow2_pos; lia).
  revert Hm1 Hm2 Hp Hq Hk.
  generalize (2 ^ Zpos (digits2_pos m1)) (2 ^ (prec - 1)) (2 ^ (e1 - emin)) (2 ^ (e2 - emin)).
  intros; nia.
Qed.

Lemma mag_compare m1 e1 m2 e2 :
  bounded prec emax m1 e1 = true -> bounded prec emax m2 e2 = true ->
  (mag m1 e1 ?= mag m2 e2) =
  match e1 ?= e2 with
  | Lt => Lt
  | Gt => Gt
  | Eq => Pos.compare_cont Eq m1 m2
  end.
Proof.
  intros H1 H2. destruct (Z.compare_spec e1 e2) as [He | He | He].
  - subst e2. change (Pos.compare_cont Eq m1 m2) with (Zpos m1 ?= Zpos m2).
    unfold mag. apply bounded_inv in H1. fconsts.
    assert (Hk : 0 < 2 ^ (e1 - emin)) by (apply pow2_pos; lia).
    rewrite <- !(Z.mul_comm (2 ^ (e1 - emin))).
    symmetry. apply Zmult_compare_compat_l; lia.
  - apply Z.compare_lt_iff. now apply mag_lt_exp.
  - apply Z.compare_gt_iff. now apply mag_lt_exp.
Qed.

Lemma SFcompare_SF2Z (x y : spec_float) :
  valid_binary x = true -> valid_binary y = true ->
  SFis_nan x = false -> SFis_nan y = false ->
  SFcompare x y = Some (SF2Z x ?= SF2Z y).
Proof.
  intros Hx Hy Nx Ny. fconsts.
  destruct x as [sx | sx | | sx mx ex], y as [sy | sy | | sy my ey];
    try discriminate; cbn [valid_binary] in Hx, Hy; cbn [SFcompare SF2Z]; f_equal.
  - assert (Hinf : 0 < 2 ^ (emax - emin)) by (apply pow2_pos; lia).
    destruct sy; cbn [cond_Zopp]; symmetry;
      [apply Z.compare_gt_iff | apply Z.compare_lt_iff]; lia.
  - pose proof (mag_pos _ _ Hy). fold (mag my ey).
    destruct sy; cbn [cond_Zopp]; symmetry;
      [apply Z.compare_gt_iff | apply Z.compare_lt_iff]; lia.
  - assert (Hinf : 0 < 2 ^ (emax - emin)) by (apply pow2_pos; lia).
    destruct sx; cbn [cond_Zopp]; symmetry;
      [apply Z.compare_lt_iff | apply Z.compare_gt_iff]; lia.
  - assert (Hinf : 0 < 2 ^ (emax - emin)) by (apply pow2_pos; lia).
    destruct sx, sy; cbn [cond_Zopp]; symmetry;
      first [apply Z.compare_eq_iff | apply Z.compare_lt_iff | apply Z.compare_gt_iff]; lia.
  - assert (Hinf : 0 < 2 ^ (emax - emin)) by (apply pow2_pos; lia).
    pose proof (mag_pos _ _ Hy). pose proof (mag_lt_inf _ _ Hy). fold (mag my ey).
    destruct sx, sy; cbn [cond_Zopp]; symmetry;
      first [apply Z.compare_lt_iff; lia | apply Z.compare_gt_iff; lia].
  - pose proof (mag_pos _ _ Hx). fold (mag mx ex).
    destruct sx; cbn [cond_Zopp]; symmetry;
      [apply Z.compare_lt_iff | apply Z.compare_gt_iff]; lia.
  - assert (Hinf : 0 < 2 ^ (emax - emin)) by (apply pow2_pos; lia).
    pose proof (mag_pos _ _ Hx). pose proof (mag_lt_inf _ _ Hx). fold (mag mx ex).
    destruct sx, sy; cbn [cond_Zopp]; symmetry;
      first [apply Z.compare_lt_iff; lia | apply Z.compare_gt_iff; lia].
  - pose proof (mag_pos _ _ Hx). pose proof (mag_pos _ _ Hy).
    fold (mag mx ex) (mag my ey).
    destruct sx, sy; cbn [cond_Zopp].
    + rewrite Z.compare_opp. rewrite (mag_compare my ey mx ex) by assumption.
      rewrite (Z.compare_antisym ex ey).
      destruct (ex ?= ey); cbn [CompOpp]; try reflexivity.
      apply Pos.compare_cont_antisym.
    + symmetry; apply Z.compare_lt_iff; lia.
    + symmetry; apply Z.compare_gt_iff; lia.
    + now rewrite mag_compare.
Qed.

(** Rounding never cancels a non-zero value whose exponent is at least emin. *)

Lemma shr_1_digits (s : shr_record) :
  Zdigits2 (shr_m (shr_1 s)) = Z.max 0 (Zdigits2 (shr_m s) - 1).
Proof.
  destruct s as [m r t]. destruct m as [| p | p]; cbn [shr_1 shr_m].
  - reflexivity.
  - destruct p; cbn [Zdigits2 digits2_pos shr_m]; rewrite ?Pos2Z.inj_succ; lia.
  - destruct p; cbn [Zdigits2 digits2_pos shr_m]; rewrite ?Pos2Z.inj_succ; lia.
Qed.

Lemma shr_1_nonneg (s : shr_record) : 0 <= shr_m s -> 0 <= shr_m (shr_1 s).
Proof.
  destruct s as [m r t]. destruct m as [| p | p]; cbn [shr_1 shr_m]; try lia.
  destruct p; cbn [shr_m]; lia.
Qed.

Lemma iter_shr_1_digits (p : positive) : forall s,
  Zdigits2 (shr_m (SpecFloat.iter_pos shr_1 p s)) = Z.max 0 (Zdigits2 (shr_m s) - Zpos p).
Proof.
  induction p as [p IH | p IH |]; intros s; cbn [SpecFloat.iter_pos].
  - rewrite !IH, shr_1_digits. lia.
  - rewrite !IH. lia.
  - apply shr_1_digits.
Qed.

Lemma iter_shr_1_nonneg (p : positive) : forall s,
  0 <= shr_m s -> 0 <= shr_m (SpecFloat.iter_pos shr_1 p s).
Proof.
  induction p as [p IH | p IH |]; intros s Hs; cbn [SpecFloat.iter_pos].
  - now apply IH, IH, shr_1_nonneg.
  - now apply IH, IH.
  - now apply shr_1_nonneg.
Qed.

Lemma Zdigits2_pos_iff (z : Z) : 0 <= z -> (0 < Zdigits2 z <-> 0 < z).
Proof. destruct z; cbn; lia. Qed.

Lemma shr_m_of_loc m l : shr_m (shr_record_of_loc m l) = m.
Proof. destruct l as [| []]; reflexivity. Qed.

Lemma shr_fexp_pos (m e : Z) (l : location) :
  0 < m -> emin <= e ->
  0 < shr_m (fst (shr_fexp prec emax m e l)) /\ emin <= snd (shr_fexp prec emax m e l).
Proof.
  intros Hm He. fconsts. unfold shr_fexp, shr, fexp.
  destruct (Z.max (Zdigits2 m + e - prec) emin - e) as [| p | p] eqn:Hn;
    cbn [fst snd]; rewrite ?shr_m_of_loc; try (split; lia).
  split; [| lia].
  apply Zdigits2_pos_iff.
  - apply iter_shr_1_nonneg. rewrite shr_m_of_loc. lia.
  - rewrite iter_shr_1_digits, shr_m_of_loc. lia.
Qed.

Lemma round_nearest_even_pos m l : 0 < m -> 0 < round_nearest_even m l.
Proof.
  intros Hm. destruct l as [| []]; cbn [round_nearest_even]; try lia.
  destruct (Z.even m); lia.
Qed.


Lemma binary_round_aux_signed s m e l :
  0 < m -> emin <= e -> SFsigned s (binary_round_aux prec emax s m e l).
Proof.
  intros Hm He. unfold binary_round_aux.
  destruct (shr_fexp_pos m e l Hm He) as [Hm1 He1].
  destruct (shr_fexp prec emax m e l) as [mrs1 e1]. cbn [fst snd] in Hm1, He1.
  pose proof (round_nearest_even_pos _ (loc_of_shr_record mrs1) Hm1) as Hr.
  destruct (shr_fexp_pos _ e1 loc_Exact Hr He1) as [Hm2 _].
  destruct (shr_fexp prec emax _ e1 loc_Exact) as [mrs2 e2]. cbn [fst] in Hm2.
  destruct (shr_m mrs2); try lia.
  destruct (e2 <=? emax - prec); reflexivity.
Qed.

Lemma binary_round_signed s m e :
  emin <= e -> SFsigned s (binary_round prec emax s m e).
Proof.
  intros He. fconsts. unfold binary_round, shl_align, fexp.
  destruct (Z.max (Zpos (digits2_pos m) + e - prec) emin - e) eqn:Hd;
    apply binary_round_aux_signed; lia.
Qed.

Lemma shl_align_value m e e' :
  e' <= e -> Zpos (fst (shl_align m e e')) = Zpos m * 2 ^ (e - e').
Proof.
  intros Hle. unfold shl_align.
  destruct (e' - e) as [| d | d] eqn:Hd; cbn [fst]; try lia.
  - replace (e - e') with 0 by lia. cbn. lia.
  - replace (e - e') with (Zpos d) by lia.
    change (Pos.iter xO m d) with (shift_pos d m).
    rewrite shift_pos_correct. change (Zpower_pos 2 d) with (2 ^ Zpos d). ring.
Qed.

Lemma SFsigned_ltb s r :
  SFsigned s r ->
  SFltb (S754_zero false) r = negb s /\ SFltb r (S754_zero false) = s.
Proof.
  destruct r as [| s' | | s' m e]; cbn [SFsigned]; try contradiction;
    intros ->; destruct s; split; reflexivity.
Qed.

Lemma cond_Zopp_mul s a b : cond_Zopp s a * b = cond_Zopp s (a * b).
Proof. destruct s; cbn [cond_Zopp]; ring. Qed.

Lemma SF2Z_aligned s m e ez :
  emin <= ez <= e ->
  SF2Z (S754_finite s m e) =
  cond_Zopp s (Zpos (fst (shl_align m e ez))) * 2 ^ (ez - emin).
Proof.
  intros H. cbn [SF2Z]. rewrite shl_align_value by lia.
  replace (e - emin) with ((e - ez) + (ez - emin)) by ring.
  rewrite pow2_split, cond_Zopp_mul by lia. f_equal. ring.
Qed.

Lemma SFsub_sign (x y : spec_float) :
  valid_binary x = true -> valid_binary y = true ->
  SFis_nan x = false -> SFis_nan y = false ->
  SFltb (S754_zero false) (SF64sub x y) = (SF2Z y <? SF2Z x) /\
  SFltb (SF64sub x y) (S754_zero false) = (SF2Z x <? SF2Z y).
Proof.
  intros Hx Hy Nx Ny. fconsts.
  assert (Hinf : 0 < 2 ^ (emax - emin)) by (apply pow2_pos; lia).
  destruct x as [sx | sx | | sx mx ex], y as [sy | sy | | sy my ey];
    try discriminate; cbn [valid_binary] in Hx, Hy; unfold SF64sub;
    cbn [SFsub SF2Z];
    try (pose proof (mag_pos _ _ Hx); pose proof (mag_lt_inf _ _ Hx); fold (mag mx ex));
    try (pose proof (mag_pos _ _ Hy); pose proof (mag_lt_inf _ _ Hy); fold (mag my ey)).
  1-8: destruct sx, sy; cbn [cond_Zopp negb SFltb SFcompare]; split; symmetry;
       first [apply Z.ltb_lt; lia | apply Z.ltb_ge; lia].
  change (cond_Zopp sx (mag mx ex)) with (SF2Z (S754_finite sx mx ex)).
  change (cond_Zopp sy (mag my ey)) with (SF2Z (S754_finite sy my ey)).
  apply bounded_inv in Hx, Hy.
  set (ez := Z.min ex ey).
  rewrite (SF2Z_aligned sx mx ex ez), (SF2Z_aligned sy my ey ez) by (unfold ez; lia).
  assert (HP : 0 < 2 ^ (ez - emin)) by (apply pow2_pos; unfold ez; lia).
  set (X := cond_Zopp sx _). set (Y := cond_Zopp sy _).
  unfold binary_normalize.
  destruct (X - Y) as [| d | d] eqn:Hd.
  - cbn [SFltb SFcompare]. split; symmetry; apply Z.ltb_ge; nia.
  - destruct (SFsigned_ltb false _ (binary_round_signed false d ez ltac:(unfold ez; lia))) as [-> ->].
    cbn [negb]. split; symmetry; [apply Z.ltb_lt | apply Z.ltb_ge]; nia.
  - destruct (SFsigned_ltb true _ (binary_round_signed true d ez ltac:(unfold ez; lia))) as [-> ->].
    cbn [negb]. split; symmetry; [apply Z.ltb_ge | apply Z.ltb_lt]; nia.
Qed.

(** The same facts on primitive floats. *)

Lemma is_nan_Prim2SF (x : float) : is_nan x = SFis_nan (Prim2SF x).
Proof.
  unfold is_nan. rewrite FloatAxioms.eqb_spec. unfold SFeqb.
  pose proof (Prim2SF_valid x) as Hv.
  destruct (SFis_nan (Prim2SF x)) eqn:Hn.
  - destruct (Prim2SF x); try discriminate. reflexivity.
  - rewrite SFcompare_SF2Z by assumption. rewrite Z.compare_refl. reflexivity.
Qed.

Lemma float_compare_F2Z (x y : float) :
  is_nan x = false -> is_nan y = false ->
  SFcompare (Prim2SF x) (Prim2SF y) = Some (F2Z x ?= F2Z y).
Proof.
  intros Hx Hy. rewrite is_nan_Prim2SF in Hx, Hy.
  apply SFcompare_SF2Z; auto using Prim2SF_valid.
Qed.

Lemma ltb_F2Z (x y : float) :
  is_nan x = false -> is_nan y = false -> (x <? y)%float = (F2Z x <? F2Z y).
Proof.
  intros Hx Hy. rewrite FloatAxioms.ltb_spec. unfold SFltb, Z.ltb.
  rewrite float_compare_F2Z by assumption. reflexivity.
Qed.

Lemma leb_F2Z (x y : float) :
  is_nan x = false -> is_nan y = false -> (x <=? y)%float = (F2Z x <=? F2Z y).
Proof.
  intros Hx Hy. rewrite FloatAxioms.leb_spec. unfold SFleb, Z.leb.
  rewrite float_compare_F2Z by assumption. now destruct (F2Z x ?= F2Z y).
Qed.

Lemma leb_not_nan (x y : float) :
  (x <=? y)%float = true -> is_nan x = false /\ is_nan y = false.
Proof.
  rewrite FloatAxioms.leb_spec, !is_nan_Prim2SF. unfold SFleb.
  destruct (Prim2SF x), (Prim2SF y); cbn; intros H; try discriminate; auto.
Qed.

Lemma ltb_not_nan (x y : float) :
  (x <? y)%float = true -> is_nan x = false /\ is_nan y = false.
Proof.
  rewrite FloatAxioms.ltb_spec, !is_nan_Prim2SF. unfold SFltb.
  destruct (Prim2SF x), (Prim2SF y); cbn; intros H; try discriminate; auto.
Qed.

Lemma ltb_nan_l (x y : float) : is_nan x = true -> (x <? y)%float = false.
Proof.
  intros H. destruct (x <? y)%float eqn:E; [|reflexivity].
  apply ltb_not_nan in E. destruct E; congruence.
Qed.

Lemma ltb_nan_r (x y : float) : is_nan y = true -> (x <? y)%float = false.
Proof.
  intros H. destruct (x <? y)%float eqn:E; [|reflexivity].
  apply ltb_not_nan in E. destruct E; congruence.
Qed.

(** [x - y] is positive exactly when [y < x], and negative exactly when
    [x < y]: subtraction is a consistent comparator on numbers. *)
Lemma sub_pos_ltb (x y : float) :
  is_nan x = false -> is_nan y = false ->
  (0 <? x - y)%float = (y <? x)%float.
Proof.
  intros Hx Hy. rewrite (ltb_F2Z y x) by assumption.
  rewrite FloatAxioms.ltb_spec, FloatAxioms.sub_spec. rewrite is_nan_Prim2SF in Hx, Hy.
  change (Prim2SF 0) with (S754_zero false).
  apply SFsub_sign; auto using Prim2SF_valid.
Qed.

Lemma sub_neg_ltb (x y : float) :
  is_nan x = false -> is_nan y = false ->
  (x - y <? 0)%float = (x <? y)%float.
Proof.
  intros Hx Hy. rewrite (ltb_F2Z x y) by assumption.
  rewrite FloatAxioms.ltb_spec, FloatAxioms.sub_spec. rewrite is_nan_Prim2SF in Hx, Hy.
  change (Prim2SF 0) with (S754_zero false).
  apply SFsub_sign; auto using Prim2SF_valid.
Qed.

(** ** [Array.prototype.sort] *)

Section Sorting.
Context {A : Type} (comparefn : A -> A -> float).

Lemma SortCompare_pos (x y : A) :
  (0 <? SortCompare comparefn x y)%float = (0 <? comparefn x y)%float.
Proof.
  unfold SortCompare, isNaN. destruct (is_nan (comparefn x y)) eqn:E; [|reflexivity].
  rewrite (ltb_nan_r 0 (comparefn x y)) by assumption. reflexivity.
Qed.

Lemma sort_insert_perm (x : A) (l : list A) : sort_insert comparefn x l ≡ₚ x :: l.
Proof.
  induction l as [|y l IH]; cbn [sort_insert]; [reflexivity|].
  destruct (0 <? SortCompare comparefn x y)%float; [|reflexivity].
  rewrite IH. apply Permutation_swap.
Qed.

Lemma Array_sort_perm (l : list A) : Array_sort comparefn l ≡ₚ l.
Proof.
  induction l as [|x l IH]; cbn; [reflexivity|].
  fold (Array_sort comparefn l). now rewrite sort_insert_perm, IH.
Qed.

Lemma Array_sort_length (l : list A) : length (Array_sort comparefn l) = length l.
Proof. apply Permutation_length, Array_sort_perm. Qed.

End Sorting.

(** *** Sorting by time spent *)

Lemma valid_time_is_number (d : OriginData) : valid_origin_data d -> time_is_number d.
Proof. intros [H _]. now apply leb_not_nan in H. Qed.

Lemma time_desc_key (x y : OriginData) :
  time_is_number x -> time_is_number y -> (time_desc x y <-> time_key y <= time_key x).
Proof.
  intros Hx Hy. unfold time_desc, time_key. rewrite leb_F2Z by assumption.
  apply Z.leb_le.
Qed.

Lemma byTimeSpent_test (x y : OriginData) :
  time_is_number x -> time_is_number y ->
  (0 <? SortCompare byTimeSpent x y)%float = (time_key x <? time_key y).
Proof.
  intros Hx Hy. rewrite SortCompare_pos. unfold byTimeSpent, time_key.
  rewrite sub_pos_ltb by assumption. now apply ltb_F2Z.
Qed.

Lemma sort_insert_byTimeSpent_sorted (x : OriginData) (l : list OriginData) :
  time_is_number x -> Forall time_is_number l ->
  StronglySorted time_desc l ->
  StronglySorted time_desc (sort_insert byTimeSpent x l).
Proof.
  intros Hx Hl Hs. induction l as [|y l IH]; cbn [sort_insert].
  - repeat constructor.
  - apply Forall_cons in Hl as [Hy Hl]. apply StronglySorted_cons in Hs as [Hyl Hs].
    rewrite byTimeSpent_test by assumption.
    destruct (Z.ltb_spec (time_key x) (time_key y)) as [Hlt | Hge].
    + apply StronglySorted_cons. split; [|now apply IH].
      rewrite sort_insert_perm. constructor; [|assumption].
      apply time_desc_key; [assumption..|lia].
    + apply StronglySorted_cons. split; [|now apply StronglySorted_cons].
      constructor; [apply time_desc_key; [assumption..|lia]|].
      rewrite Forall_forall in Hyl, Hl |- *. intros z Hz.
      apply time_desc_key; [assumption | now apply Hl |].
      specialize (Hyl z Hz). apply time_desc_key in Hyl; [lia | assumption | now apply Hl].
Qed.

Lemma Array_sort_byTimeSpent_sorted (l : list OriginData) :
  Forall time_is_number l -> StronglySorted time_desc (Array_sort byTimeSpent l).
Proof.
  induction l as [|x l IH]; intros Hl; cbn.
  - constructor.
  - apply Forall_cons in Hl as [Hx Hl]. fold (Array_sort byTimeSpent l).
    apply sort_insert_byTimeSpent_sorted; [assumption| |now apply IH].
    now rewrite Array_sort_perm.
Qed.

(** ** The top-origin functions *)

Lemma getTopOriginsByTimeSpent_eq n odl h :
  getTopOriginsByTimeSpent n odl h = topOriginsBy byTimeSpent n odl h.
Proof.
  unfold getTopOriginsByTimeSpent, topOriginsBy, alloc, Array_slice0.
  destruct odl as [r|]; [|reflexivity]. destruct (h !! r) as [arr|]; [|reflexivity].
  destruct (1 <? length arr)%nat; [|reflexivity].
  cbv beta iota zeta. now rewrite length_insert.
Qed.

Lemma getTopOriginsThatNeedSomeLove_eq n odl h :
  getTopOriginsThatNeedSomeLove n odl h = topOriginsBy needsLove n odl h.
Proof.
  unfold getTopOriginsThatNeedSomeLove, topOriginsBy, alloc, Array_slice0.
  destruct odl as [r|]; [|reflexivity]. destruct (h !! r) as [arr|]; [|reflexivity].
  destruct (1 <? length arr)%nat; [|reflexivity].
  cbv beta iota zeta. now rewrite length_insert.
Qed.

Section TopOrigins.
Context (comparefn : OriginData -> OriginData -> float).
Context (n : nat) (r : ref) (h : heap) (arr : list OriginData).
Hypothesis Harr : h !! r = Some arr.

Lemma topOriginsBy_small :
  (length arr <= 1)%nat -> topOriginsBy comparefn n (Some r) h = (Some r, h).
Proof.
  intros Hlen. unfold topOriginsBy. rewrite Harr.
  destruct (Nat.ltb_spec 1 (length arr)); [lia | reflexivity].
Qed.

Lemma topOriginsBy_many :
  (1 < length arr)%nat ->
  topOriginsBy comparefn n (Some r) h =
  (Some (length h),
   <[r := Array_sort comparefn arr]> h
     ++ [take (Nat.min n (length arr)) (Array_sort comparefn arr)]).
Proof.
  intros Hlen. unfold topOriginsBy. rewrite Harr.
  destruct (Nat.ltb_spec 1 (length arr)); [|lia].
  now rewrite Array_sort_length.
Qed.

(** What a call leaves in the provider's array: the same records, possibly
    in another order. *)
Lemma topOriginsBy_provider_list :
  exists arr', (topOriginsBy comparefn n (Some r) h).2 !! r = Some arr' /\
               arr' ≡ₚ arr /\ ((length arr <= 1)%nat -> arr' = arr).
Proof.
  destruct (Nat.le_gt_cases (length arr) 1) as [Hs | Hm].
  - rewrite topOriginsBy_small by assumption. exists arr. cbn. auto.
  - rewrite topOriginsBy_many by assumption. cbn [snd].
    exists (Array_sort comparefn arr). apply lookup_lt_Some in Harr as Hr.
    rewrite lookup_app_l by now rewrite length_insert.
    rewrite list_lookup_insert_eq by assumption.
    split; [reflexivity|]. split; [apply Array_sort_perm | lia].
Qed.

(** Every other array is left as it was. *)
Lemma topOriginsBy_frame (r0 : ref) (arr0 : list OriginData) :
  r0 <> r -> h !! r0 = Some arr0 ->
  (topOriginsBy comparefn n (Some r) h).2 !! r0 = Some arr0.
Proof.
  intros Hne H0. destruct (Nat.le_gt_cases (length arr) 1) as [Hs | Hm].
  - now rewrite topOriginsBy_small.
  - rewrite topOriginsBy_many by assumption. cbn [snd].
    apply lookup_lt_Some in H0 as Hr.
    rewrite lookup_app_l by now rewrite length_insert.
    now rewrite list_lookup_insert_ne.
Qed.

End TopOrigins.

(** C2.  For every list of valid records with at least two entries and every
    count [n], [getTopOriginsByTimeSpent n] resolves to a list that is sorted
    in descending order of [monetizedTimeSpent] and has length
    [min n (length of the input)]; it is the front of a sorted rearrangement
    of the input. *)
Theorem getTopOriginsByTimeSpent_sorted_min_length
    (n : nat) (r : ref) (h : heap) (arr : list OriginData) :
  h !! r = Some arr ->
  (2 <= length arr)%nat ->
  Forall valid_origin_data arr ->
  exists (top : ref) (h' : heap) (out : list OriginData),
    getTopOriginsByTimeSpent n (Some r) h = (Some top, h') /\
    h' !! top = Some out /\
    StronglySorted time_desc out /\
    length out = Nat.min n (length arr) /\
    exists rest, out ++ rest ≡ₚ arr /\ StronglySorted time_desc (out ++ rest).
Proof.
  intros Harr Hlen Hvalid.
  rewrite getTopOriginsByTimeSpent_eq, (topOriginsBy_many _ _ _ _ _ Harr) by lia.
  set (sorted := Array_sort byTimeSpent arr).
  assert (Hsorted : StronglySorted time_desc sorted).
  { apply Array_sort_byTimeSpent_sorted.
    eapply Forall_impl; [exact Hvalid | exact valid_time_is_number]. }
  set (k := Nat.min n (length arr)).
  exists (length h), (<[r := sorted]> h ++ [take k sorted]), (take k sorted).
  split; [reflexivity|]. split.
  { apply list_lookup_middle. now rewrite length_insert. }
  split.
  { apply (StronglySorted_app_1_l _ _ (drop k sorted)). now rewrite take_drop. }
  split.
  { rewrite length_take. unfold sorted. rewrite Array_sort_length. unfold k. lia. }
  exists (drop k sorted). rewrite take_drop. split; [apply Array_sort_perm | assumption].
Qed.

(** An instance: the top two of the list [[C(90); A(100); B(95)]]. *)
Lemma getTopOriginsByTimeSpent_sorted_min_length_witness :
  [[originC; originA; originB]] !! 0%nat = Some [originC; originA; originB] /\
  (2 <= length [originC; originA; originB])%nat /\
  Forall valid_origin_data [originC; originA; originB] /\
  exists (top : ref) (h' : heap) (out : list OriginData),
    getTopOriginsByTimeSpent 2 (Some 0%nat) [[originC; originA; originB]] = (Some top, h') /\
    h' !! top = Some out /\
    StronglySorted time_desc out /\
    length out = Nat.min 2 (length [originC; originA; originB]) /\
    exists rest, out ++ rest ≡ₚ [originC; originA; originB] /\
                 StronglySorted time_desc (out ++ rest).
Proof.
  assert (H1 : [[originC; originA; originB]] !! 0%nat = Some [originC; originA; originB])
    by reflexivity.
  assert (H2 : (2 <= length [originC; originA; originB])%nat) by (cbn; lia).
  assert (H3 : Forall valid_origin_data [originC; originA; originB])
    by (repeat constructor).
  split; [exact H1|]. split; [exact H2|]. split; [exact H3|].
  exact (getTopOriginsByTimeSpent_sorted_min_length 2 0%nat _ _ H1 H2 H3).
Defined.

Example getTopOriginsByTimeSpent_example :
  getTopOriginsByTimeSpent 2 (Some 0%nat) [[originC; originA; originB]] =
  (Some 1%nat, [[originA; originB; originC]; [originA; originB]]).
Proof. reflexivity. Qed.

(** C3, as stated, fails: the provider's list is sorted in place.  After
    [getTopOriginsByTimeSpent] on the list [[originC; originA]] the provider's
    array holds [[originA; originC]]. *)
Lemma getTopOriginsByTimeSpent_reorders_provider_list :
  (getTopOriginsByTimeSpent 1 (Some 0%nat) [[originC; originA]]).2 !! 0%nat
    = Some [originA; originC] /\
  [originA; originC] <> [originC; originA].
Proof.
  split; [reflexivity|]. intros H.
  apply (f_equal (fun l => origin <$> l)) in H. discriminate H.
Qed.

(** C3, amended.  The two top-origin functions sort the list supplied by the
    Data Provider in place: after a call that list holds the same records,
    possibly in another order, and it is unchanged when it has at most one
    entry.  No record is changed and every other array is left as it was. *)
Theorem top_origins_sort_provider_list_in_place
    (n : nat) (r : ref) (h : heap) (arr : list OriginData) :
  h !! r = Some arr ->
  (exists arr', (getTopOriginsByTimeSpent n (Some r) h).2 !! r = Some arr' /\
                arr' ≡ₚ arr /\ ((length arr <= 1)%nat -> arr' = arr)) /\
  (exists arr', (getTopOriginsThatNeedSomeLove n (Some r) h).2 !! r = Some arr' /\
                arr' ≡ₚ arr /\ ((length arr <= 1)%nat -> arr' = arr)) /\
  (forall (r0 : ref) (arr0 : list OriginData),
     r0 <> r -> h !! r0 = Some arr0 ->
     (getTopOriginsByTimeSpent n (Some r) h).2 !! r0 = Some arr0 /\
     (getTopOriginsThatNeedSomeLove n (Some r) h).2 !! r0 = Some arr0).
Proof.
  intros Harr.
  rewrite !getTopOriginsByTimeSpent_eq, !getTopOriginsThatNeedSomeLove_eq.
  split; [now apply topOriginsBy_provider_list|].
  split; [now apply topOriginsBy_provider_list|].
  intros r0 arr0 Hne H0.
  split; eapply topOriginsBy_frame; eassumption.
Qed.

(** An instance: a heap with the provider's list [[C; A]] and another
    array. *)
Lemma top_origins_sort_provider_list_in_place_witness :
  [[originB]; [originC; originA]] !! 1%nat = Some [originC; originA] /\
  (exists arr', (getTopOriginsByTimeSpent 1 (Some 1%nat) [[originB]; [originC; originA]]).2
                  !! 1%nat = Some arr' /\ arr' ≡ₚ [originC; originA]) /\
  (getTopOriginsThatNeedSomeLove 1 (Some 1%nat) [[originB]; [originC; originA]]).2
    !! 0%nat = Some [originB].
Proof.
  assert (H1 : [[originB]; [originC; originA]] !! 1%nat = Some [originC; originA])
    by reflexivity.
  destruct (top_origins_sort_provider_list_in_place 1 1%nat _ _ H1)
    as [[arr' [Ha [Hp _]]] [_ Hframe]].
  split; [exact H1|]. split.
  - exists arr'. split; assumption.
  - apply (Hframe 0%nat [originB]); [lia | reflexivity].
Defined.

(** C4, as stated, fails for the empty list: an empty array is truthy, so the
    function resolves to the array itself, not to [null]. *)
Lemma getTopOriginsByTimeSpent_empty_list_is_not_null :
  getTopOriginsByTimeSpent 3 (Some 0%nat) [[]] = (Some 0%nat, [[]]) /\
  (getTopOriginsByTimeSpent 3 (Some 0%nat) [[]]).1 <> None.
Proof. split; [reflexivity | discriminate]. Qed.

(** C4, amended.  [getTopOriginsByTimeSpent n] resolves to [null] when the
    list is [null]; when the list is empty or has a single entry it resolves
    to that very list, left unchanged. *)
Theorem getTopOriginsByTimeSpent_null_or_short
    (n : nat) (r : ref) (h : heap) (arr : list OriginData) :
  h !! r = Some arr ->
  (length arr <= 1)%nat ->
  getTopOriginsByTimeSpent n None h = (None, h) /\
  getTopOriginsByTimeSpent n (Some r) h = (Some r, h).
Proof.
  intros Harr Hlen. split; [reflexivity|].
  rewrite getTopOriginsByTimeSpent_eq. now apply (topOriginsBy_small _ _ _ _ arr).
Qed.

(** Two instances: the empty list and a single-entry list. *)
Lemma getTopOriginsByTimeSpent_null_or_short_witness :
  ([[]; [originA]] !! 0%nat = Some [] /\ (length (@nil OriginData) <= 1)%nat /\
   getTopOriginsByTimeSpent 3 (Some 0%nat) [[]; [originA]] = (Some 0%nat, [[]; [originA]])) /\
  ([[]; [originA]] !! 1%nat = Some [originA] /\ (length [originA] <= 1)%nat /\
   getTopOriginsByTimeSpent 3 (Some 1%nat) [[]; [originA]] = (Some 1%nat, [[]; [originA]])).
Proof.
  assert (H0 : [[]; [originA]] !! 0%nat = Some []) by reflexivity.
  assert (L0 : (length (@nil OriginData) <= 1)%nat) by (cbn; lia).
  assert (H1 : [[]; [originA]] !! 1%nat = Some [originA]) by reflexivity.
  assert (L1 : (length [originA] <= 1)%nat) by (cbn; lia).
  split.
  - split; [exact H0|]. split; [exact L0|].
    exact (proj2 (getTopOriginsByTimeSpent_null_or_short 3 0%nat _ _ H0 L0)).
  - split; [exact H1|]. split; [exact L1|].
    exact (proj2 (getTopOriginsByTimeSpent_null_or_short 3 1%nat _ _ H1 L1)).
Defined.

(** ** The need-love comparator *)

Lemma needsLove_unfold (a b : OriginData) :
  needsLove a b =
  if ((0.75 <=? needsLoveRatio a / needsLoveRatio b)%float
      && (needsLoveRatio a / needsLoveRatio b <=? 1)%float)
  then
    if (numberOfVisits (originVisitData b) <? numberOfVisits (originVisitData a))%float
    then 1%float
    else (-1)%float
  else (needsLoveRatio a - needsLoveRatio b)%float.
Proof. reflexivity. Qed.

(** C1.  When the quotient of the two need ratios lies in [[0.75, 1.0]], the
    comparator puts the record with fewer visits first: it returns a positive
    value ([b] before [a]) when [a] has more visits than [b], and a negative
    value ([a] before [b]) otherwise. *)
Theorem needsLove_close_ratios_fewer_visits_first (a b : OriginData) :
  let ratioComparison := (needsLoveRatio a / needsLoveRatio b)%float in
  (0.75 <=? ratioComparison)%float = true ->
  (ratioComparison <=? 1)%float = true ->
  ((numberOfVisits (originVisitData b) <? numberOfVisits (originVisitData a))%float = true ->
   needsLove a b = 1%float /\ (0 <? needsLove a b)%float = true) /\
  ((numberOfVisits (originVisitData b) <? numberOfVisits (originVisitData a))%float = false ->
   needsLove a b = (-1)%float /\ (needsLove a b <? 0)%float = true).
Proof.
  intros rc Hlo Hhi. rewrite needsLove_unfold. fold rc. rewrite Hlo, Hhi. cbn [andb].
  split; intros ->; split; reflexivity.
Qed.

(** The instance of the specification: A(time=100, visits=10) and
    B(time=95, visits=8); the comparator, called with [a] = A and [b] = B, is
    positive, which places B before A. *)
Lemma needsLove_close_ratios_fewer_visits_first_witness :
  (0.75 <=? needsLoveRatio originA / needsLoveRatio originB)%float = true /\
  (needsLoveRatio originA / needsLoveRatio originB <=? 1)%float = true /\
  (numberOfVisits (originVisitData originB) <? numberOfVisits (originVisitData originA))%float
    = true /\
  needsLove originA originB = 1%float /\
  (0 <? needsLove originA originB)%float = true.
Proof.
  assert (Hlo : (0.75 <=? needsLoveRatio originA / needsLoveRatio originB)%float = true)
    by reflexivity.
  assert (Hhi : (needsLoveRatio originA / needsLoveRatio originB <=? 1)%float = true)
    by reflexivity.
  assert (Hv : (numberOfVisits (originVisitData originB)
                <? numberOfVisits (originVisitData originA))%float = true)
    by reflexivity.
  split; [exact Hlo|]. split; [exact Hhi|]. split; [exact Hv|].
  exact (proj1 (needsLove_close_ratios_fewer_visits_first originA originB Hlo Hhi) Hv).
Defined.

(** C8.  When the quotient of the two need ratios is outside [[0.75, 1.0]],
    the comparator is the difference of the ratios, so the order is ascending
    need ratio: for ratios that are numbers it is negative exactly when [a]'s
    ratio is the smaller, and positive exactly when it is the larger. *)
Theorem needsLove_far_ratios_ascending (a b : OriginData) :
  let ratioComparison := (needsLoveRatio a / needsLoveRatio b)%float in
  ((0.75 <=? ratioComparison)%float && (ratioComparison <=? 1)%float) = false ->
  needsLove a b = (needsLoveRatio a - needsLoveRatio b)%float /\
  (is_nan (needsLoveRatio a) = false -> is_nan (needsLoveRatio b) = false ->
   (needsLove a b <? 0)%float = (needsLoveRatio a <? needsLoveRatio b)%float /\
   (0 <? needsLove a b)%float = (needsLoveRatio b <? needsLoveRatio a)%float).
Proof.
  intros rc Hout. rewrite needsLove_unfold. fold rc. rewrite Hout.
  split; [reflexivity|]. intros Ha Hb.
  now rewrite sub_neg_ltb, sub_pos_ltb.
Qed.

(** The instance of the specification: A(time=100, visits=10) with ratio 10
    and B(time=90, visits=5) with ratio 18; the comparator is negative, so A
    goes before B. *)
Lemma needsLove_far_ratios_ascending_witness :
  ((0.75 <=? needsLoveRatio originA / needsLoveRatio originC)%float
   && (needsLoveRatio originA / needsLoveRatio originC <=? 1)%float) = false /\
  needsLoveRatio originA = 10%float /\
  needsLoveRatio originC = 18%float /\
  needsLove originA originC = (needsLoveRatio originA - needsLoveRatio originC)%float /\
  (needsLove originA originC <? 0)%float = true.
Proof.
  assert (Hout : ((0.75 <=? needsLoveRatio originA / needsLoveRatio originC)%float
                  && (needsLoveRatio originA / needsLoveRatio originC <=? 1)%float) = false)
    by reflexivity.
  destruct (needsLove_far_ratios_ascending originA originC Hout) as [Heq Hsign].
  destruct (Hsign eq_refl eq_refl) as [Hneg _].
  split; [exact Hout|]. split; [reflexivity|]. split; [reflexivity|].
  split; [exact Heq|]. rewrite Hneg. reflexivity.
Defined.

(** C10.  The comparator is not antisymmetric: for two records with equal
    need ratios and equal visit counts it is negative in both directions.
    The same holds for every pair whose quotients both lie in the window and
    neither of which has more visits than the other. *)
Theorem needsLove_not_antisymmetric :
  (exists a b : OriginData,
     needsLoveRatio a = needsLoveRatio b /\
     numberOfVisits (originVisitData a) = numberOfVisits (originVisitData b) /\
     (needsLove a b <? 0)%float = true /\
     (needsLove b a <? 0)%float = true) /\
  (forall a b : OriginData,
     ((0.75 <=? needsLoveRatio a / needsLoveRatio b)%float
      && (needsLoveRatio a / needsLoveRatio b <=? 1)%float) = true ->
     ((0.75 <=? needsLoveRatio b / needsLoveRatio a)%float
      && (needsLoveRatio b / needsLoveRatio a <=? 1)%float) = true ->
     (numberOfVisits (originVisitData b) <? numberOfVisits (originVisitData a))%float = false ->
     (numberOfVisits (originVisitData a) <? numberOfVisits (originVisitData b))%float = false ->
     (needsLove a b <? 0)%float = true /\ (needsLove b a <? 0)%float = true).
Proof.
  split.
  - exists originA, originD. repeat split; reflexivity.
  - intros a b Hab Hba Hv1 Hv2. rewrite !needsLove_unfold, Hab, Hba, Hv1, Hv2.
    split; reflexivity.
Qed.

(** ** [hasUsedWebMonetizationProvider] *)

Lemma Object_keys_length_zero (m : gmap string float) :
  length (Object_keys m) = 0%nat <-> m = ∅.
Proof.
  unfold Object_keys. rewrite length_fmap, length_zero_iff_nil.
  apply map_to_list_empty_iff.
Qed.

(** C9.  [hasUsedWebMonetizationProvider stats] is [true] exactly when
    [stats] exists and its [totalSentAssetsMap] is non-null and has at least
    one entry; it is [false] for an empty map and [true] for the map
    [{a: 1}]. *)
Theorem hasUsedWebMonetizationProvider_true_iff :
  (forall originStats : option OriginStats,
     hasUsedWebMonetizationProvider originStats = VBool true <->
     exists (stats : OriginStats) (m : gmap string float),
       originStats = Some stats /\ totalSentAssetsMap stats = Some m /\
       exists (k : string) (v : float), m !! k = Some v) /\
  (forall t mt v : float,
     hasUsedWebMonetizationProvider
       (Some {| totalTimeSpent := t; totalMonetizedTimeSpent := mt; totalVisits := v;
                totalSentAssetsMap := Some ∅ |}) = VBool false) /\
  (forall t mt v : float,
     hasUsedWebMonetizationProvider
       (Some {| totalTimeSpent := t; totalMonetizedTimeSpent := mt; totalVisits := v;
                totalSentAssetsMap := Some {[ "a"%string := 1%float ]} |}) = VBool true).
Proof.
  split; [|split].
  - intros [stats|]; cbn [hasUsedWebMonetizationProvider].
    + destruct (totalSentAssetsMap stats) as [m|] eqn:Hm.
      * split.
        -- intros H. exists stats, m. split; [reflexivity|]. split; [exact Hm|].
           apply map_choose. intros ->.
           rewrite (proj2 (Object_keys_length_zero ∅)) in H by reflexivity.
           discriminate H.
        -- intros (stats' & m' & Hs & Hm' & k & v & Hk).
           injection Hs as <-. rewrite Hm in Hm'. injection Hm' as <-.
           destruct (length (Object_keys m)) eqn:Hlen; [|reflexivity].
           apply Object_keys_length_zero in Hlen. subst m.
           rewrite lookup_empty in Hk. discriminate Hk.
      * split; [discriminate|].
        intros (stats' & m' & Hs & Hm' & _). injection Hs as <-. congruence.
    + split; [discriminate|]. intros (stats & m & Hs & _). discriminate Hs.
  - intros t mt v. reflexivity.
  - intros t mt v. cbn [hasUsedWebMonetizationProvider totalSentAssetsMap].
    unfold Object_keys. now rewrite map_to_list_singleton.
Qed.

(** ** Formatting and the not-a-number guard *)

Lemma eqb_not_nan (x y : float) :
  (x =? y)%float = true -> is_nan x = false /\ is_nan y = false.
Proof.
  rewrite FloatAxioms.eqb_spec, !is_nan_Prim2SF. unfold SFeqb.
  destruct (Prim2SF x), (Prim2SF y); cbn; intros H; try discriminate; auto.
Qed.

Lemma is_zero_nan (x : float) : is_nan x = true -> is_zero x = false.
Proof.
  intros H. unfold is_zero. destruct (x =? zero)%float eqn:E; [|reflexivity].
  apply eqb_not_nan in E. destruct E; congruence.
Qed.

Lemma Number_parseFloat_nan (x : float) : is_nan x = true -> Number_parseFloat x = x.
Proof. intros H. unfold Number_parseFloat. now rewrite is_zero_nan. Qed.

Lemma Number_parseFloat_is_nan (x : float) : is_nan (Number_parseFloat x) = is_nan x.
Proof.
  unfold Number_parseFloat. destruct (is_zero x) eqn:E; [|reflexivity].
  apply eqb_not_nan in E. destruct E as [-> _]. reflexivity.
Qed.

Lemma unNaN_nan (x : float) : is_nan x = true -> unNaN x = 0%float.
Proof. intros H. unfold unNaN, isNaN. now rewrite H. Qed.

Lemma unNaN_number (x : float) : is_nan x = false -> unNaN x = x.
Proof. intros H. unfold unNaN, isNaN. now rewrite H. Qed.

Lemma is_nan_eq_nan (x : float) : is_nan x = true -> x = nan.
Proof.
  intros H. apply Prim2SF_inj. rewrite is_nan_Prim2SF in H.
  destruct (Prim2SF x); try discriminate. reflexivity.
Qed.

Section Formatting.
Variable Number_toString : float -> string.

Lemma Number_toFixed_nan (x : float) (f : nat) :
  is_nan x = true -> Number_toFixed Number_toString x f = "NaN"%string.
Proof. intros H. apply is_nan_eq_nan in H. subst x. reflexivity. Qed.

Lemma Number_toFixed_zero : Number_toFixed Number_toString 0 2 = "0.00"%string.
Proof. reflexivity. Qed.

(** What [getEstimatedPaymentForOriginUSD] returns, case by case. *)
Lemma getEstimatedPaymentForOriginUSD_cases (originData : option OriginData) :
  getEstimatedPaymentForOriginUSD Number_toString originData =
  match originData with
  | None => VNum 0%float
  | Some d =>
      let payment :=
        (monetizedTimeSpent (originVisitData d) * STREAM_RATE_PER_MILLISECOND)%float in
      if is_nan payment then VStr "0.00"
      else VStr (Number_toFixed Number_toString (Number_parseFloat payment) 2)
  end.
Proof.
  destruct originData as [d|]; [|reflexivity].
  cbv zeta. unfold getEstimatedPaymentForOriginUSD.
  set (payment := (_ * STREAM_RATE_PER_MILLISECOND)%float).
  destruct (is_nan payment) eqn:E.
  - rewrite unNaN_nan by now rewrite Number_parseFloat_is_nan. reflexivity.
  - rewrite unNaN_number by now rewrite Number_parseFloat_is_nan. reflexivity.
Qed.

End Formatting.

(** A positive number divided by zero is an infinity, not not-a-number, so
    [unNaN] lets it through. *)
Lemma positive_div_zero (t z : float) :
  (0 <? t)%float = true -> (z =? 0)%float = true ->
  (t / z)%float = infinity \/ (t / z)%float = neg_infinity.
Proof.
  intros Ht Hz. rewrite FloatAxioms.ltb_spec in Ht. rewrite FloatAxioms.eqb_spec in Hz.
  change (Prim2SF 0) with (S754_zero false) in Ht, Hz.
  assert (Hq : exists s, Prim2SF (t / z) = S754_infinity s).
  { rewrite div_spec. unfold SF64div.
    destruct (Prim2SF t) as [[] | [] | | [] mt et]; try discriminate Ht;
      destruct (Prim2SF z) as [sz | [] | | [] mz ez]; try discriminate Hz;
      cbn [SFdiv]; eauto. }
  destruct Hq as [s Hq]. rewrite <- (SF2Prim_Prim2SF (t / z)), Hq.
  destruct s; [right | left]; reflexivity.
Qed.

Section Percentages.
Variable Number_toString : float -> string.

(** C5 fails on the code.  [getPercentVisitsToOriginOutOfTotal] and
    [getMonetizedTimeSpentPercent] test their denominator against zero and
    return [0]; [getPercentTimeSpentAtOriginOutOfTotal] has no such test, and
    for a positive [monetizedTimeSpent] and [totalTimeSpent = 0] it returns
    the string ["Infinity"] (["-Infinity"] when the total is [-0]). *)
Theorem getPercentTimeSpentAtOriginOutOfTotal_zero_total :
  (forall v tm tv m,
     getPercentTimeSpentAtOriginOutOfTotal Number_toString
       (Some (mkOrigin "a" 5 v))
       (Some {| totalTimeSpent := 0; totalMonetizedTimeSpent := tm; totalVisits := tv;
                totalSentAssetsMap := m |})
     = VStr "Infinity") /\
  (forall (d : OriginData) (stats : OriginStats),
     (0 <? monetizedTimeSpent (originVisitData d))%float = true ->
     (totalTimeSpent stats =? 0)%float = true ->
     getPercentTimeSpentAtOriginOutOfTotal Number_toString (Some d) (Some stats)
       = VStr "Infinity" \/
     getPercentTimeSpentAtOriginOutOfTotal Number_toString (Some d) (Some stats)
       = VStr "-Infinity") /\
  (forall (d : OriginData) (stats : OriginStats),
     (totalVisits stats =? 0)%float = true ->
     getPercentVisitsToOriginOutOfTotal Number_toString (Some d) (Some stats)
       = VNum 0%float) /\
  (forall stats : OriginStats,
     (totalTimeSpent stats =? 0)%float = true ->
     getMonetizedTimeSpentPercent Number_toString (Some stats) = VNum 0%float).
Proof.
  split; [|split; [|split]].
  - intros v tm tv m. reflexivity.
  - intros d stats Ht Hz.
    unfold getPercentTimeSpentAtOriginOutOfTotal, toPercent.
    destruct (positive_div_zero _ _ Ht Hz) as [-> | ->]; [left | right]; reflexivity.
  - intros d stats Hz. unfold getPercentVisitsToOriginOutOfTotal. now rewrite Hz.
  - intros stats Hz. unfold getMonetizedTimeSpentPercent. now rewrite Hz.
Qed.

(** The guards for missing inputs, as the code has them. *)
Lemma percent_missing_input_is_zero (d : option OriginData) (stats : option OriginStats) :
  (d = None \/ stats = None ->
   getPercentTimeSpentAtOriginOutOfTotal Number_toString d stats = VNum 0%float /\
   getPercentVisitsToOriginOutOfTotal Number_toString d stats = VNum 0%float) /\
  getMonetizedTimeSpentPercent Number_toString None = VNum 0%float.
Proof.
  split; [|reflexivity]. intros [-> | ->]; [destruct stats | destruct d]; split; reflexivity.
Qed.

(** [0 / 0] is not-a-number, which [unNaN] turns into [0]: the string
    ["0.00"]. *)
Example getPercentTimeSpentAtOriginOutOfTotal_zero_over_zero :
  getPercentTimeSpentAtOriginOutOfTotal Number_toString
    (Some (mkOrigin "a" 0 1))
    (Some {| totalTimeSpent := 0; totalMonetizedTimeSpent := 0; totalVisits := 0;
             totalSentAssetsMap := None |})
  = VStr "0.00".
Proof. reflexivity. Qed.

End Percentages.

(** ** Strings and decimal digits *)

Lemma append_cons (c : ascii) (a b : string) :
  String.append (String c a) b = String c (String.append a b).
Proof. reflexivity. Qed.

Lemma append_assoc (a b c : string) :
  String.append (String.append a b) c = String.append a (String.append b c).
Proof.
  induction a as [|x a IH]; [reflexivity|].
  rewrite !append_cons. now f_equal.
Qed.

Lemma length_append (a b : string) :
  String.length (String.append a b) = (String.length a + String.length b)%nat.
Proof.
  induction a as [|x a IH]; [reflexivity|].
  rewrite append_cons. cbn [String.length]. rewrite IH. reflexivity.
Qed.

Lemma substring_all (b : string) : substring 0 (String.length b) b = b.
Proof.
  induction b as [|x b IH]; [reflexivity|].
  cbn [String.length substring]. now f_equal.
Qed.

Lemma substring_prefix (a b : string) :
  substring 0 (String.length a) (String.append a b) = a.
Proof.
  induction a as [|x a IH].
  - destruct b; reflexivity.
  - rewrite append_cons. cbn [String.length substring]. now f_equal.
Qed.

Lemma substring_suffix (a b : string) :
  substring (String.length a) (String.length b) (String.append a b) = b.
Proof.
  induction a as [|x a IH]; [apply substring_all|].
  rewrite append_cons. cbn [String.length substring]. exact IH.
Qed.

Lemma digits_acc_append (fuel : nat) : forall (n : N) (acc : string),
  digits_acc fuel n acc = String.append (digits_acc fuel n EmptyString) acc.
Proof.
  induction fuel as [|fuel IH]; intros n acc; cbn [digits_acc]; [reflexivity|].
  destruct (n / 10 =? 0)%N; [reflexivity|].
  rewrite IH, (IH _ (String _ EmptyString)), append_assoc. reflexivity.
Qed.

Lemma digits_fuel_div (n : N) : (n / 10 <> 0)%N -> (digits_fuel (n / 10) < digits_fuel n)%nat.
Proof.
  intros Hq. unfold digits_fuel.
  assert (Hn : (10 <= n)%N).
  { destruct (N.lt_ge_cases n 10) as [Hlt|]; [|assumption].
    apply N.div_small in Hlt. contradiction. }
  assert (Hle : (n / 10 <= n / 2)%N) by (apply N.div_le_compat_l; lia).
  apply N.log2_le_mono in Hle.
  assert (Hhalf : (N.log2 (n / 2) = N.log2 n - 1)%N).
  { rewrite <- N.div2_div, N.div2_spec. apply N.log2_shiftr. }
  assert (Hpos : (0 < N.log2 n)%N) by (apply N.log2_pos; lia).
  lia.
Qed.

Lemma digits_acc_fuel_irrelevant (f1 : nat) : forall (f2 : nat) (n : N) (acc : string),
  (digits_fuel n <= f1)%nat -> (digits_fuel n <= f2)%nat ->
  digits_acc f1 n acc = digits_acc f2 n acc.
Proof.
  induction f1 as [|f1 IH]; intros f2 n acc H1 H2.
  - unfold digits_fuel in H1. lia.
  - destruct f2 as [|f2]; [unfold digits_fuel in H2; lia|].
    cbn [digits_acc]. destruct (N.eqb_spec (n / 10) 0) as [|Hq]; [reflexivity|].
    pose proof (digits_fuel_div n Hq). apply IH; lia.
Qed.

Lemma decimal_digits_small (n : N) :
  (n < 10)%N -> decimal_digits n = String (digit_char n) EmptyString.
Proof.
  intros Hn. unfold decimal_digits, digits_fuel. cbn [digits_acc].
  rewrite N.div_small, N.mod_small by assumption. reflexivity.
Qed.

Lemma decimal_digits_step (n : N) :
  (10 <= n)%N ->
  decimal_digits n =
  String.append (decimal_digits (n / 10)) (String (digit_char (n mod 10)) EmptyString).
Proof.
  intros Hn. assert (Hq : (n / 10 <> 0)%N).
  { intros H0. apply N.div_small_iff in H0; lia. }
  pose proof (digits_fuel_div n Hq) as Hlt. unfold digits_fuel in Hlt.
  unfold decimal_digits at 1. unfold digits_fuel at 1. cbn [digits_acc].
  destruct (N.eqb_spec (n / 10) 0) as [|_]; [contradiction|].
  rewrite digits_acc_append. f_equal.
  apply digits_acc_fuel_irrelevant; unfold digits_fuel; lia.
Qed.

Lemma decimal_digits_length_pos (n : N) : (0 < String.length (decimal_digits n))%nat.
Proof.
  destruct (N.lt_ge_cases n 10) as [Hs | Hb].
  - rewrite decimal_digits_small by assumption. cbn. lia.
  - rewrite decimal_digits_step, length_append by assumption. cbn. lia.
Qed.

Lemma substring_suffix_of_length (a b : string) (k : nat) :
  String.length b = k -> substring (String.length a) k (String.append a b) = b.
Proof. intros <-. apply substring_suffix. Qed.

Lemma insert_point_two (a b : string) :
  String.length b = 2%nat -> (0 < String.length a)%nat ->
  insert_point (String.append a b) 2 = String.append a (String "." b).
Proof.
  intros Hb Ha. unfold insert_point. cbv zeta. rewrite !length_append, Hb.
  destruct (Nat.leb_spec (String.length a + 2) 2) as [Hle | _]; [lia|].
  rewrite length_append, Hb.
  replace (String.length a + 2 - 2)%nat with (String.length a) by lia.
  rewrite substring_prefix, substring_suffix_of_length by assumption.
  reflexivity.
Qed.

(** [toFixed(2)] prints the integer [n] of hundredths as the digits of
    [n / 100], a point, and the two digits of [n mod 100]. *)
Lemma fixed_digits_two (n : Z) :
  fixed_digits n 2 =
  String.append (decimal_digits (Z.to_N n / 100))
    (String "." (String (digit_char ((Z.to_N n / 10) mod 10))
                   (String (digit_char (Z.to_N n mod 10)) EmptyString))).
Proof.
  unfold fixed_digits. set (k := Z.to_N n).
  destruct (N.lt_ge_cases k 10) as [H1 | H1].
  - rewrite (decimal_digits_small k) by assumption.
    rewrite !N.div_small by lia. rewrite (N.mod_small k), (N.mod_small 0) by lia.
    reflexivity.
  - rewrite (decimal_digits_step k) by assumption.
    destruct (N.lt_ge_cases k 100) as [H2 | H2].
    + assert (Hq : (k / 10 < 10)%N) by (apply N.Div0.div_lt_upper_bound; lia).
      rewrite (decimal_digits_small (k / 10)) by assumption.
      rewrite (N.div_small k 100), (N.mod_small (k / 10)) by assumption.
      reflexivity.
    + assert (Hq : (10 <= k / 10)%N) by (apply N.div_le_lower_bound; lia).
      rewrite (decimal_digits_step (k / 10)) by assumption.
      rewrite N.Div0.div_div. change (10 * 10)%N with 100%N.
      rewrite append_assoc. apply insert_point_two; [reflexivity|].
      apply decimal_digits_length_pos.
Qed.

(** ** Payment estimates *)

(** [toFixed] rounds to the nearest multiple of [10^-f], upwards on a tie:
    for the value [m * 2^(-k)], the integer [n] it prints satisfies
    [10^f * m - 2^k / 2 < n * 2^k <= 10^f * m + 2^k / 2]. *)
Lemma nearest_scaled_fraction (m k : positive) (f : nat) :
  let n := nearest_scaled m (Zneg k) f in
  2 * 10 ^ Z.of_nat f * Zpos m - 2 ^ Zpos k < 2 * (n * 2 ^ Zpos k)
    <= 2 * 10 ^ Z.of_nat f * Zpos m + 2 ^ Zpos k.
Proof.
  cbv zeta. unfold nearest_scaled.
  assert (Hp : 0 < 2 ^ Zpos k) by (apply pow2_pos; lia).
  rewrite pow2_succ by lia.
  set (a := 2 * 10 ^ Z.of_nat f * Zpos m + 2 ^ Zpos k).
  pose proof (Z.div_mod a (2 * 2 ^ Zpos k) ltac:(lia)) as Hdm.
  pose proof (Z.mod_pos_bound a (2 * 2 ^ Zpos k) ltac:(lia)) as Hmod.
  unfold a in *. lia.
Qed.

(** For an integer value [m * 2^e] the printed integer is exact. *)
Lemma nearest_scaled_integer (m : positive) (e : Z) (f : nat) :
  0 <= e -> nearest_scaled m e f = 10 ^ Z.of_nat f * (Zpos m * 2 ^ e).
Proof. intros He. unfold nearest_scaled. destruct e; try lia; ring. Qed.

Section Payments.
Variable Number_toString : float -> string.

Example Number_toFixed_examples :
  Number_toFixed Number_toString 3.6 2 = "3.60"%string /\
  Number_toFixed Number_toString 1.005 2 = "1.00"%string /\
  Number_toFixed Number_toString 0.125 2 = "0.13"%string /\
  Number_toFixed Number_toString 1234.5678 2 = "1234.57"%string /\
  Number_toFixed Number_toString (-0.001) 2 = "-0.00"%string /\
  Number_toFixed Number_toString (-0) 2 = "0.00"%string /\
  Number_toFixed Number_toString neg_infinity 2 = "-Infinity"%string.
Proof. repeat split; reflexivity. Qed.

(** In its fixed-notation range [toFixed(2)] prints a sign, the digits of the
    integer part, a point and exactly two decimals; [n] is the nearest
    integer of hundredths ([nearest_scaled_fraction]). *)
Lemma Number_toFixed_two_decimals (x : float) (s : bool) (m : positive) (e : Z) :
  Prim2SF x = S754_finite s m e ->
  (1e21 <=? abs x)%float = false ->
  let n := Z.to_N (nearest_scaled m e 2) in
  Number_toFixed Number_toString x 2 =
  String.append (if s then "-" else "")
    (String.append (decimal_digits (n / 100))
       (String "." (String (digit_char ((n / 10) mod 10))
                      (String (digit_char (n mod 10)) EmptyString)))).
Proof.
  intros Hx Hr. cbv zeta. unfold Number_toFixed. rewrite Hx, Hr.
  now rewrite fixed_digits_two.
Qed.

Lemma finite_is_number (x : float) (s : bool) (m : positive) (e : Z) :
  Prim2SF x = S754_finite s m e -> is_nan x = false.
Proof. intros H. now rewrite is_nan_Prim2SF, H. Qed.

(** C6, amended.  When the origin's data is missing,
    [getEstimatedPaymentForOriginUSD] returns the number [0], not a string.
    When the data is present and the computed payment is not-a-number it
    returns ["0.00"]; otherwise it returns
    [monetizedTimeSpent * 0.0000001] formatted by [toFixed(2)]: for a finite
    payment below [10^21], a sign, the integer digits, a point and the two
    decimals of the nearest hundredth.  For 36,000,000 ms that is
    ["3.60"]. *)
Theorem getEstimatedPaymentForOriginUSD_result :
  (forall originData : option OriginData,
     getEstimatedPaymentForOriginUSD Number_toString originData =
     match originData with
     | None => VNum 0%float
     | Some d =>
         let payment := (monetizedTimeSpent (originVisitData d) * 0.0000001)%float in
         if is_nan payment then VStr "0.00"
         else VStr (Number_toFixed Number_toString (Number_parseFloat payment) 2)
     end) /\
  (forall (d : OriginData) (s : bool) (m : positive) (e : Z),
     let payment :=
       Number_parseFloat (monetizedTimeSpent (originVisitData d) * 0.0000001)%float in
     let n := Z.to_N (nearest_scaled m e 2) in
     Prim2SF payment = S754_finite s m e ->
     (1e21 <=? abs payment)%float = false ->
     getEstimatedPaymentForOriginUSD Number_toString (Some d) =
     VStr (String.append (if s then "-" else "")
             (String.append (decimal_digits (n / 100))
                (String "." (String (digit_char ((n / 10) mod 10))
                               (String (digit_char (n mod 10)) EmptyString)))))) /\
  (forall (o : string) (visits : float),
     getEstimatedPaymentForOriginUSD Number_toString (Some (mkOrigin o 36000000 visits))
     = VStr "3.60").
Proof.
  split; [|split].
  - exact (getEstimatedPaymentForOriginUSD_cases Number_toString).
  - intros d s m e payment n Hp Hr. subst payment n.
    rewrite getEstimatedPaymentForOriginUSD_cases. cbv zeta.
    change STREAM_RATE_PER_MILLISECOND with 0.0000001%float.
    pose proof (finite_is_number _ _ _ _ Hp) as Hn.
    rewrite Number_parseFloat_is_nan in Hn. rewrite Hn. f_equal.
    now apply Number_toFixed_two_decimals.
  - intros o visits. reflexivity.
Qed.

(** C7.  [getEstimatedPaymentForTimeInUSD timeSpent] is
    [timeSpent * 0.0000001] formatted by [toFixed(2)], with no not-a-number
    guard: when the product is not-a-number the result is the string
    ["NaN"], where [getEstimatedPaymentForOriginUSD] returns ["0.00"]. *)
Theorem getEstimatedPaymentForTimeInUSD_no_nan_guard :
  (forall timeSpent : float,
     getEstimatedPaymentForTimeInUSD Number_toString timeSpent =
     VStr (Number_toFixed Number_toString
             (Number_parseFloat (timeSpent * 0.0000001)%float) 2)) /\
  (forall timeSpent : float,
     is_nan (timeSpent * 0.0000001)%float = true ->
     getEstimatedPaymentForTimeInUSD Number_toString timeSpent = VStr "NaN") /\
  (forall d : OriginData,
     is_nan (monetizedTimeSpent (originVisitData d) * 0.0000001)%float = true ->
     getEstimatedPaymentForOriginUSD Number_toString (Some d) = VStr "0.00") /\
  getEstimatedPaymentForTimeInUSD Number_toString nan = VStr "NaN" /\
  (forall (o : string) (visits : float),
     getEstimatedPaymentForOriginUSD Number_toString (Some (mkOrigin o nan visits))
     = VStr "0.00").
Proof.
  split; [reflexivity|]. split; [|split; [|split]].
  - intros t Hn. unfold getEstimatedPaymentForTimeInUSD.
    rewrite Number_toFixed_nan; [reflexivity|].
    now rewrite Number_parseFloat_is_nan.
  - intros d Hn. rewrite getEstimatedPaymentForOriginUSD_cases. cbv zeta.
    change STREAM_RATE_PER_MILLISECOND with 0.0000001%float. now rewrite Hn.
  - reflexivity.
  - intros o visits. reflexivity.
Qed.

End Payments.

(** C6, as stated, fails when the origin's data is missing: the result is the
    number [0], not the string ["0.00"]. *)
Lemma getEstimatedPaymentForOriginUSD_missing_is_number :
  (forall Number_toString : float -> string,
     getEstimatedPaymentForOriginUSD Number_toString None = VNum 0%float) /\
  VNum 0%float <> VStr "0.00".
Proof. split; [reflexivity | discriminate]. Qed.

(* ===================================================================== *)
(** * Further properties of the calculator *)
(* ===================================================================== *)

(** ** What the top-origin functions return *)

Section TopOriginsResult.
Context (comparefn : OriginData -> OriginData -> float).
Context (n : nat) (r : ref) (h : heap) (arr : list OriginData).
Hypothesis Harr : h !! r = Some arr.

(** The result of a call and the provider's list it leaves, in one
    statement. *)
Lemma topOriginsBy_result :
  exists (top : ref) (h' : heap) (out arr' : list OriginData),
    topOriginsBy comparefn n (Some r) h = (Some top, h') /\
    h' !! top = Some out /\
    h' !! r = Some arr' /\
    arr' ≡ₚ arr /\
    out = (if (1 <? length arr)%nat then take (Nat.min n (length arr)) arr' else arr') /\
    ((1 < length arr)%nat -> h !! top = None /\ top <> r) /\
    ((length arr <= 1)%nat -> top = r /\ h' = h).
Proof.
  apply lookup_lt_Some in Harr as Hr.
  destruct (Nat.ltb_spec 1 (length arr)) as [Hm | Hs].
  - rewrite (topOriginsBy_many _ _ _ _ _ Harr) by assumption.
    set (sorted := Array_sort comparefn arr).
    exists (length h), (<[r := sorted]> h ++ [take (Nat.min n (length arr)) sorted]),
      (take (Nat.min n (length arr)) sorted), sorted.
    split; [reflexivity|]. split.
    { apply list_lookup_middle. now rewrite length_insert. }
    split.
    { rewrite lookup_app_l by now rewrite length_insert.
      now apply list_lookup_insert_eq. }
    split; [apply Array_sort_perm|]. split; [reflexivity|]. split; [|lia].
    intros _. split; [now apply lookup_ge_None_2 | lia].
  - rewrite (topOriginsBy_small _ _ _ _ _ Harr) by assumption.
    exists r, h, arr, arr. repeat split; auto; lia.
Qed.

End TopOriginsResult.

(** The number of records returned, for every list: [min n length] when the
    list has at least two entries, and the whole list, whatever [n] is, when
    it has fewer. *)
Theorem top_origins_result_length
    (n : nat) (r : ref) (h : heap) (arr : list OriginData) :
  h !! r = Some arr ->
  (exists (top : ref) (h' : heap) (out : list OriginData),
     getTopOriginsByTimeSpent n (Some r) h = (Some top, h') /\
     h' !! top = Some out /\
     length out = if (1 <? length arr)%nat then Nat.min n (length arr) else length arr) /\
  (exists (top : ref) (h' : heap) (out : list OriginData),
     getTopOriginsThatNeedSomeLove n (Some r) h = (Some top, h') /\
     h' !! top = Some out /\
     length out = if (1 <? length arr)%nat then Nat.min n (length arr) else length arr).
Proof.
  intros Harr.
  rewrite getTopOriginsByTimeSpent_eq, getTopOriginsThatNeedSomeLove_eq.
  split.
  - destruct (topOriginsBy_result byTimeSpent n r h arr Harr)
      as (top & h' & out & arr' & Hc & Ht & _ & Hp & Ho & _).
    exists top, h', out. split; [exact Hc|]. split; [exact Ht|].
    subst out. apply Permutation_length in Hp.
    destruct (1 <? length arr)%nat; [rewrite length_take; lia | exact Hp].
  - destruct (topOriginsBy_result needsLove n r h arr Harr)
      as (top & h' & out & arr' & Hc & Ht & _ & Hp & Ho & _).
    exists top, h', out. split; [exact Hc|]. split; [exact Ht|].
    subst out. apply Permutation_length in Hp.
    destruct (1 <? length arr)%nat; [rewrite length_take; lia | exact Hp].
Qed.

(** An instance: asking for the top 0 of a single-entry list returns the
    entry. *)
Lemma top_origins_result_length_witness :
  [[originA]] !! 0%nat = Some [originA] /\
  exists (top : ref) (h' : heap) (out : list OriginData),
    getTopOriginsThatNeedSomeLove 0 (Some 0%nat) [[originA]] = (Some top, h') /\
    h' !! top = Some out /\ length out = 1%nat.
Proof.
  assert (H0 : [[originA]] !! 0%nat = Some [originA]) by reflexivity.
  split; [exact H0|].
  exact (proj2 (top_origins_result_length 0 0%nat _ _ H0)).
Defined.

(** For a list with at least two entries [getTopOriginsThatNeedSomeLove]
    returns the first [min n length] entries of the provider's list as the
    call leaves it, and that list holds the records it held before. *)
Theorem getTopOriginsThatNeedSomeLove_front_of_provider_list
    (n : nat) (r : ref) (h : heap) (arr : list OriginData) :
  h !! r = Some arr ->
  (2 <= length arr)%nat ->
  exists (top : ref) (h' : heap) (out arr' : list OriginData),
    getTopOriginsThatNeedSomeLove n (Some r) h = (Some top, h') /\
    h' !! top = Some out /\
    h' !! r = Some arr' /\
    arr' ≡ₚ arr /\
    out = take (Nat.min n (length arr)) arr' /\
    (forall d : OriginData, d ∈ out -> d ∈ arr).
Proof.
  intros Harr Hlen. rewrite getTopOriginsThatNeedSomeLove_eq.
  destruct (topOriginsBy_result needsLove n r h arr Harr)
    as (top & h' & out & arr' & Hc & Ht & Hr & Hp & Ho & _).
  destruct (Nat.ltb_spec 1 (length arr)) as [_ | Hs]; [|lia].
  exists top, h', out, arr'. repeat (split; [assumption|]).
  intros d Hd. rewrite <- Hp. subst out.
  revert Hd. apply subseteq_take.
Qed.

(** An instance: the top one of the list [[C; A]]. *)
Lemma getTopOriginsThatNeedSomeLove_front_of_provider_list_witness :
  [[originC; originA]] !! 0%nat = Some [originC; originA] /\
  (2 <= length [originC; originA])%nat /\
  exists (top : ref) (h' : heap) (out arr' : list OriginData),
    getTopOriginsThatNeedSomeLove 1 (Some 0%nat) [[originC; originA]] = (Some top, h') /\
    h' !! top = Some out /\
    h' !! 0%nat = Some arr' /\
    arr' ≡ₚ [originC; originA] /\
    out = take (Nat.min 1 (length [originC; originA])) arr' /\
    (forall d : OriginData, d ∈ out -> d ∈ [originC; originA]).
Proof.
  assert (H0 : [[originC; originA]] !! 0%nat = Some [originC; originA]) by reflexivity.
  assert (H1 : (2 <= length [originC; originA])%nat) by (cbn; lia).
  split; [exact H0|]. split; [exact H1|].
  exact (getTopOriginsThatNeedSomeLove_front_of_provider_list 1 0%nat _ _ H0 H1).
Defined.

(** [getTopOriginsThatNeedSomeLove] resolves to [null] for a [null] list, and
    to the provider's own list, untouched, when it is empty or has a single
    entry, whatever [n] is. *)
Theorem getTopOriginsThatNeedSomeLove_null_or_short
    (n : nat) (r : ref) (h : heap) (arr : list OriginData) :
  h !! r = Some arr ->
  (length arr <= 1)%nat ->
  getTopOriginsThatNeedSomeLove n None h = (None, h) /\
  getTopOriginsThatNeedSomeLove n (Some r) h = (Some r, h).
Proof.
  intros Harr Hlen. split; [reflexivity|].
  rewrite getTopOriginsThatNeedSomeLove_eq. now apply (topOriginsBy_small _ _ _ _ arr).
Qed.

(** Two instances: the empty list and a single-entry list, with [n = 0]. *)
Lemma getTopOriginsThatNeedSomeLove_null_or_short_witness :
  ([[]; [originB]] !! 0%nat = Some [] /\ (length (@nil OriginData) <= 1)%nat /\
   getTopOriginsThatNeedSomeLove 0 (Some 0%nat) [[]; [originB]]
     = (Some 0%nat, [[]; [originB]])) /\
  ([[]; [originB]] !! 1%nat = Some [originB] /\ (length [originB] <= 1)%nat /\
   getTopOriginsThatNeedSomeLove 0 (Some 1%nat) [[]; [originB]]
     = (Some 1%nat, [[]; [originB]])).
Proof.
  assert (H0 : [[]; [originB]] !! 0%nat = Some []) by reflexivity.
  assert (L0 : (length (@nil OriginData) <= 1)%nat) by (cbn; lia).
  assert (H1 : [[]; [originB]] !! 1%nat = Some [originB]) by reflexivity.
  assert (L1 : (length [originB] <= 1)%nat) by (cbn; lia).
  split.
  - split; [exact H0|]. split; [exact L0|].
    exact (proj2 (getTopOriginsThatNeedSomeLove_null_or_short 0 0%nat _ _ H0 L0)).
  - split; [exact H1|]. split; [exact L1|].
    exact (proj2 (getTopOriginsThatNeedSomeLove_null_or_short 0 1%nat _ _ H1 L1)).
Defined.

(** For a list with at least two entries both functions return a new array
    ([slice]): its reference names no array of the heap before the call, so
    it is neither the provider's list nor any other existing array, and the
    provider's list stays where it was. *)
Theorem top_origins_return_new_array
    (n : nat) (r : ref) (h : heap) (arr : list OriginData) :
  h !! r = Some arr ->
  (2 <= length arr)%nat ->
  (exists (top : ref) (h' : heap),
     getTopOriginsByTimeSpent n (Some r) h = (Some top, h') /\
     h !! top = None /\ top <> r /\ is_Some (h' !! top) /\ is_Some (h' !! r)) /\
  (exists (top : ref) (h' : heap),
     getTopOriginsThatNeedSomeLove n (Some r) h = (Some top, h') /\
     h !! top = None /\ top <> r /\ is_Some (h' !! top) /\ is_Some (h' !! r)).
Proof.
  intros Harr Hlen.
  rewrite getTopOriginsByTimeSpent_eq, getTopOriginsThatNeedSomeLove_eq.
  split.
  - destruct (topOriginsBy_result byTimeSpent n r h arr Harr)
      as (top & h' & out & arr' & Hc & Ht & Hr & _ & _ & Hnew & _).
    destruct (Hnew ltac:(lia)) as [Hnone Hne].
    exists top, h'. rewrite Ht, Hr. eauto 10.
  - destruct (topOriginsBy_result needsLove n r h arr Harr)
      as (top & h' & out & arr' & Hc & Ht & Hr & _ & _ & Hnew & _).
    destruct (Hnew ltac:(lia)) as [Hnone Hne].
    exists top, h'. rewrite Ht, Hr. eauto 10.
Qed.

Lemma top_origins_return_new_array_witness :
  [[originB]; [originC; originA]] !! 1%nat = Some [originC; originA] /\
  (2 <= length [originC; originA])%nat /\
  exists (top : ref) (h' : heap),
    getTopOriginsByTimeSpent 1 (Some 1%nat) [[originB]; [originC; originA]]
      = (Some top, h') /\
    [[originB]; [originC; originA]] !! top = None /\ top <> 1%nat /\
    is_Some (h' !! top) /\ is_Some (h' !! 1%nat).
Proof.
  assert (H0 : [[originB]; [originC; originA]] !! 1%nat = Some [originC; originA])
    by reflexivity.
  assert (H1 : (2 <= length [originC; originA])%nat) by (cbn; lia).
  split; [exact H0|]. split; [exact H1|].
  exact (proj1 (top_origins_return_new_array 1 1%nat _ _ H0 H1)).
Defined.

(** ** The time-spent comparator *)

Lemma eqb_F2Z (x y : float) :
  is_nan x = false -> is_nan y = false -> (x =? y)%float = (F2Z x =? F2Z y).
Proof.
  intros Hx Hy. rewrite FloatAxioms.eqb_spec. unfold SFeqb.
  rewrite float_compare_F2Z by assumption.
  destruct (Z.compare_spec (F2Z x) (F2Z y)) as [H | H | H]; symmetry;
    [apply Z.eqb_eq | apply Z.eqb_neq | apply Z.eqb_neq]; lia.
Qed.

(** On records whose times are numbers, [b.time - a.time] is a consistent
    comparator: its sign is the comparison of the two times, swapping the
    arguments swaps the sign, and "goes after" is transitive. *)
Theorem byTimeSpent_consistent_comparator (a b c : OriginData) :
  time_is_number a -> time_is_number b -> time_is_number c ->
  (0 <? byTimeSpent a b)%float
    = (monetizedTimeSpent (originVisitData a) <? monetizedTimeSpent (originVisitData b))%float /\
  (byTimeSpent a b <? 0)%float
    = (monetizedTimeSpent (originVisitData b) <? monetizedTimeSpent (originVisitData a))%float /\
  (0 <? byTimeSpent a b)%float = (byTimeSpent b a <? 0)%float /\
  ((0 <? byTimeSpent a b)%float = true -> (0 <? byTimeSpent b c)%float = true ->
   (0 <? byTimeSpent a c)%float = true).
Proof.
  unfold time_is_number, byTimeSpent. intros Ha Hb Hc.
  rewrite !sub_pos_ltb, !sub_neg_ltb by assumption.
  repeat split. rewrite !ltb_F2Z by assumption. rewrite !Z.ltb_lt. lia.
Qed.

(** An instance: C(90), B(95), A(100). *)
Lemma byTimeSpent_consistent_comparator_witness :
  time_is_number originC /\ time_is_number originB /\ time_is_number originA /\
  (0 <? byTimeSpent originC originB)%float = true /\
  (byTimeSpent originB originC <? 0)%float = true /\
  (0 <? byTimeSpent originC originA)%float = true.
Proof.
  assert (Hc : time_is_number originC) by reflexivity.
  assert (Hb : time_is_number originB) by reflexivity.
  assert (Ha : time_is_number originA) by reflexivity.
  destruct (byTimeSpent_consistent_comparator originC originB originA Hc Hb Ha)
    as (H1 & _ & H3 & H4).
  split; [exact Hc|]. split; [exact Hb|]. split; [exact Ha|].
  split; [reflexivity|]. split; [rewrite <- H3; reflexivity|].
  apply H4; reflexivity.
Defined.

(** ** The need-love comparator contradicts itself *)

(** When [a] has the smaller need ratio, the quotient is in the window and
    [a] has more visits, the comparator called as [(a, b)] places [b] first;
    called as [(b, a)], where the quotient is outside the window, it places
    [a] first.  Which of the two an engine asks decides the order. *)
Theorem needsLove_verdict_depends_on_argument_order (a b : OriginData) :
  close_ratios a b = true ->
  close_ratios b a = false ->
  (numberOfVisits (originVisitData b) <? numberOfVisits (originVisitData a))%float = true ->
  (needsLoveRatio a <? needsLoveRatio b)%float = true ->
  (0 <? needsLove a b)%float = true /\ (0 <? needsLove b a)%float = true.
Proof.
  unfold close_ratios. intros Hab Hba Hv Hlt.
  rewrite !needsLove_unfold, Hab, Hba, Hv. split; [reflexivity|].
  apply ltb_not_nan in Hlt as Hn. destruct Hn as [Ha Hb].
  now rewrite sub_pos_ltb.
Qed.

(** An instance: A(100, 10) and B(95, 8). *)
Lemma needsLove_verdict_depends_on_argument_order_witness :
  close_ratios originA originB = true /\
  close_ratios originB originA = false /\
  (0 <? needsLove originA originB)%float = true /\
  (0 <? needsLove originB originA)%float = true.
Proof.
  assert (H1 : close_ratios originA originB = true) by reflexivity.
  assert (H2 : close_ratios originB originA = false) by reflexivity.
  split; [exact H1|]. split; [exact H2|].
  exact (needsLove_verdict_depends_on_argument_order originA originB H1 H2 eq_refl eq_refl).
Defined.

(** ** More on sorting by time spent *)

Lemma StronglySorted_impl_Forall {A : Type} (P : A -> Prop) (R1 R2 : A -> A -> Prop)
    (l : list A) :
  (forall x y, P x -> P y -> R1 x y -> R2 x y) ->
  Forall P l -> StronglySorted R1 l -> StronglySorted R2 l.
Proof.
  intros Himp HP Hs. induction Hs as [|x l Hs IH Hx]; [constructor|].
  apply Forall_cons in HP as [Px Pl]. constructor; [now apply IH|].
  rewrite Forall_forall in Hx, Pl |- *. intros y Hy. apply Himp; auto.
Qed.

Lemma valid_list_times_are_numbers (l : list OriginData) :
  Forall valid_origin_data l -> Forall time_is_number l.
Proof. intros H. eapply Forall_impl; [exact H | exact valid_time_is_number]. Qed.

(** Sorting a list that is already in descending order of time leaves it as
    it is. *)
Lemma Array_sort_byTimeSpent_sorted_id (l : list OriginData) :
  Forall time_is_number l -> StronglySorted time_desc l ->
  Array_sort byTimeSpent l = l.
Proof.
  intros Hn Hs. induction Hs as [|x l Hs IH Hx]; [reflexivity|].
  apply Forall_cons in Hn as [Nx Nl]. cbn. fold (Array_sort byTimeSpent l).
  rewrite IH by assumption. destruct l as [|y l]; [reflexivity|].
  cbn [sort_insert]. apply Forall_cons in Nl as [Ny _]. apply Forall_cons in Hx as [Hxy _].
  rewrite byTimeSpent_test by assumption.
  apply time_desc_key in Hxy; [|assumption..].
  destruct (Z.ltb_spec (time_key x) (time_key y)); [lia | reflexivity].
Qed.

(** Every record [getTopOriginsByTimeSpent] leaves out has a time no larger
    than that of every record it returns. *)
Theorem getTopOriginsByTimeSpent_returns_the_largest
    (n : nat) (r : ref) (h : heap) (arr : list OriginData) :
  h !! r = Some arr ->
  (2 <= length arr)%nat ->
  Forall valid_origin_data arr ->
  exists (top : ref) (h' : heap) (out rest : list OriginData),
    getTopOriginsByTimeSpent n (Some r) h = (Some top, h') /\
    h' !! top = Some out /\
    out ++ rest ≡ₚ arr /\
    forall x y : OriginData, x ∈ out -> y ∈ rest ->
      (monetizedTimeSpent (originVisitData y)
       <=? monetizedTimeSpent (originVisitData x))%float = true.
Proof.
  intros Harr Hlen Hvalid.
  rewrite getTopOriginsByTimeSpent_eq, (topOriginsBy_many _ _ _ _ _ Harr) by lia.
  set (sorted := Array_sort byTimeSpent arr). set (k := Nat.min n (length arr)).
  exists (length h), (<[r := sorted]> h ++ [take k sorted]), (take k sorted), (drop k sorted).
  split; [reflexivity|]. split.
  { apply list_lookup_middle. now rewrite length_insert. }
  rewrite take_drop. split; [apply Array_sort_perm|].
  intros x y Hx Hy.
  apply (StronglySorted_app_1_elem_of time_desc (take k sorted) (drop k sorted));
    [|assumption..].
  rewrite take_drop. now apply Array_sort_byTimeSpent_sorted, valid_list_times_are_numbers.
Qed.

Lemma getTopOriginsByTimeSpent_returns_the_largest_witness :
  [[originC; originA; originB]] !! 0%nat = Some [originC; originA; originB] /\
  (2 <= length [originC; originA; originB])%nat /\
  Forall valid_origin_data [originC; originA; originB] /\
  exists (top : ref) (h' : heap) (out rest : list OriginData),
    getTopOriginsByTimeSpent 1 (Some 0%nat) [[originC; originA; originB]] = (Some top, h') /\
    h' !! top = Some out /\
    out ++ rest ≡ₚ [originC; originA; originB] /\
    forall x y : OriginData, x ∈ out -> y ∈ rest ->
      (monetizedTimeSpent (originVisitData y)
       <=? monetizedTimeSpent (originVisitData x))%float = true.
Proof.
  assert (H1 : [[originC; originA; originB]] !! 0%nat = Some [originC; originA; originB])
    by reflexivity.
  assert (H2 : (2 <= length [originC; originA; originB])%nat) by (cbn; lia).
  assert (H3 : Forall valid_origin_data [originC; originA; originB])
    by (repeat constructor).
  split; [exact H1|]. split; [exact H2|]. split; [exact H3|].
  exact (getTopOriginsByTimeSpent_returns_the_largest 1 0%nat _ _ H1 H2 H3).
Defined.

(** A second call of [getTopOriginsByTimeSpent] finds the provider's list
    already sorted: it leaves that list as the first call left it, returns a
    list with the same entries, and does not touch the first result. *)
Theorem getTopOriginsByTimeSpent_twice
    (n : nat) (r : ref) (h : heap) (arr : list OriginData) :
  h !! r = Some arr ->
  (2 <= length arr)%nat ->
  Forall valid_origin_data arr ->
  exists (top1 top2 : ref) (h1 h2 : heap),
    getTopOriginsByTimeSpent n (Some r) h = (Some top1, h1) /\
    getTopOriginsByTimeSpent n (Some r) h1 = (Some top2, h2) /\
    h2 !! r = h1 !! r /\
    h2 !! top2 = h1 !! top1 /\
    h2 !! top1 = h1 !! top1 /\
    top2 <> top1.
Proof.
  intros Harr Hlen Hvalid. apply lookup_lt_Some in Harr as Hr.
  set (sorted := Array_sort byTimeSpent arr). set (k := Nat.min n (length arr)).
  set (h1 := <[r := sorted]> h ++ [take k sorted]).
  assert (Hlen1 : length h1 = S (length h)).
  { unfold h1. rewrite length_app, length_insert. cbn. lia. }
  assert (H1r : h1 !! r = Some sorted).
  { unfold h1. rewrite lookup_app_l by now rewrite length_insert.
    now apply list_lookup_insert_eq. }
  assert (H1t : h1 !! length h = Some (take k sorted)).
  { unfold h1. apply list_lookup_middle. now rewrite length_insert. }
  assert (Hls : length sorted = length arr) by apply Array_sort_length.
  assert (Hid : Array_sort byTimeSpent sorted = sorted).
  { apply Array_sort_byTimeSpent_sorted_id.
    - unfold sorted. rewrite Array_sort_perm. now apply valid_list_times_are_numbers.
    - now apply Array_sort_byTimeSpent_sorted, valid_list_times_are_numbers. }
  exists (length h), (length h1), h1, (<[r := sorted]> h1 ++ [take k sorted]).
  split.
  { now rewrite getTopOriginsByTimeSpent_eq, (topOriginsBy_many _ _ _ _ _ Harr) by lia. }
  split.
  { rewrite getTopOriginsByTimeSpent_eq, (topOriginsBy_many _ _ _ _ _ H1r) by lia.
    now rewrite Hid, Hls. }
  assert (Hins : <[r := sorted]> h1 = h1) by now apply list_insert_id.
  rewrite Hins. split.
  { apply lookup_app_l. lia. }
  split.
  { rewrite H1t. now apply list_lookup_middle. }
  split; [apply lookup_app_l; lia | lia].
Qed.

Lemma getTopOriginsByTimeSpent_twice_witness :
  [[originC; originA; originB]] !! 0%nat = Some [originC; originA; originB] /\
  (2 <= length [originC; originA; originB])%nat /\
  Forall valid_origin_data [originC; originA; originB] /\
  exists (top1 top2 : ref) (h1 h2 : heap),
    getTopOriginsByTimeSpent 2 (Some 0%nat) [[originC; originA; originB]] = (Some top1, h1) /\
    getTopOriginsByTimeSpent 2 (Some 0%nat) h1 = (Some top2, h2) /\
    h2 !! 0%nat = h1 !! 0%nat /\
    h2 !! top2 = h1 !! top1 /\
    h2 !! top1 = h1 !! top1 /\
    top2 <> top1.
Proof.
  assert (H1 : [[originC; originA; originB]] !! 0%nat = Some [originC; originA; originB])
    by reflexivity.
  assert (H2 : (2 <= length [originC; originA; originB])%nat) by (cbn; lia).
  assert (H3 : Forall valid_origin_data [originC; originA; originB])
    by (repeat constructor).
  split; [exact H1|]. split; [exact H2|]. split; [exact H3|].
  exact (getTopOriginsByTimeSpent_twice 2 0%nat _ _ H1 H2 H3).
Defined.

(** *** The result does not depend on the order of the provider's list *)

Lemma sorted_times_keys (l : list OriginData) :
  Forall time_is_number l -> StronglySorted time_desc l ->
  StronglySorted (fun a b : Z => b <= a) (time_key <$> l).
Proof.
  intros Hn Hs.
  apply (StronglySorted_fmap time_key (fun x y => time_key y <= time_key x)); [auto|].
  apply (StronglySorted_impl_Forall time_is_number time_desc); [|assumption..].
  intros x y Hx Hy. now apply time_desc_key.
Qed.

Lemma equal_keys_equal_times (l1 : list OriginData) : forall l2 : list OriginData,
  Forall time_is_number l1 -> Forall time_is_number l2 ->
  time_key <$> l1 = time_key <$> l2 ->
  Forall2 (fun x y => (monetizedTimeSpent (originVisitData x)
                       =? monetizedTimeSpent (originVisitData y))%float = true) l1 l2.
Proof.
  induction l1 as [|x l1 IH]; intros [|y l2] H1 H2 Heq; try discriminate Heq;
    [constructor|].
  apply Forall_cons in H1 as [Hx H1]. apply Forall_cons in H2 as [Hy H2].
  injection Heq as Hk Heq. constructor; [|now apply IH].
  rewrite eqb_F2Z by assumption. now apply Z.eqb_eq.
Qed.

Lemma Array_sort_byTimeSpent_order_independent (l1 l2 : list OriginData) :
  l1 ≡ₚ l2 -> Forall time_is_number l1 ->
  time_key <$> Array_sort byTimeSpent l1 = time_key <$> Array_sort byTimeSpent l2.
Proof.
  intros Hp Hn1. assert (Hn2 : Forall time_is_number l2) by now rewrite <- Hp.
  apply (StronglySorted_unique_strong (fun a b : Z => b <= a)).
  - intros a b _ _ Hab Hba. lia.
  - apply sorted_times_keys; [now rewrite Array_sort_perm|].
    now apply Array_sort_byTimeSpent_sorted.
  - apply sorted_times_keys; [now rewrite Array_sort_perm|].
    now apply Array_sort_byTimeSpent_sorted.
  - now rewrite !Array_sort_perm, Hp.
Qed.

(** Two provider lists that hold the same valid records in different orders
    give results with the same times, position by position. *)
Theorem getTopOriginsByTimeSpent_order_independent
    (n : nat) (r1 r2 : ref) (h1 h2 : heap) (l1 l2 : list OriginData) :
  h1 !! r1 = Some l1 ->
  h2 !! r2 = Some l2 ->
  l1 ≡ₚ l2 ->
  (2 <= length l1)%nat ->
  Forall valid_origin_data l1 ->
  exists (top1 top2 : ref) (h1' h2' : heap) (out1 out2 : list OriginData),
    getTopOriginsByTimeSpent n (Some r1) h1 = (Some top1, h1') /\
    getTopOriginsByTimeSpent n (Some r2) h2 = (Some top2, h2') /\
    h1' !! top1 = Some out1 /\
    h2' !! top2 = Some out2 /\
    Forall2 (fun x y => (monetizedTimeSpent (originVisitData x)
                         =? monetizedTimeSpent (originVisitData y))%float = true)
      out1 out2.
Proof.
  intros H1 H2 Hp Hlen Hvalid.
  assert (Hlen2 : length l2 = length l1) by (symmetry; now apply Permutation_length).
  assert (Hn1 : Forall time_is_number l1) by now apply valid_list_times_are_numbers.
  assert (Hn2 : Forall time_is_number l2) by now rewrite <- Hp.
  set (k := Nat.min n (length l1)).
  do 4 eexists. exists (take k (Array_sort byTimeSpent l1)), (take k (Array_sort byTimeSpent l2)).
  split.
  { now rewrite getTopOriginsByTimeSpent_eq, (topOriginsBy_many _ _ _ _ _ H1) by lia. }
  split.
  { rewrite getTopOriginsByTimeSpent_eq, (topOriginsBy_many _ _ _ _ _ H2) by lia.
    now rewrite Hlen2. }
  split.
  { apply list_lookup_middle. now rewrite length_insert. }
  split.
  { apply list_lookup_middle. now rewrite length_insert. }
  apply Forall2_take, equal_keys_equal_times.
  - now rewrite Array_sort_perm.
  - now rewrite Array_sort_perm.
  - now apply Array_sort_byTimeSpent_order_independent.
Qed.

Lemma getTopOriginsByTimeSpent_order_independent_witness :
  [[originC; originA; originB]] !! 0%nat = Some [originC; originA; originB] /\
  [[originA; originB; originC]] !! 0%nat = Some [originA; originB; originC] /\
  [originC; originA; originB] ≡ₚ [originA; originB; originC] /\
  (2 <= length [originC; originA; originB])%nat /\
  Forall valid_origin_data [originC; originA; originB] /\
  exists (top1 top2 : ref) (h1' h2' : heap) (out1 out2 : list OriginData),
    getTopOriginsByTimeSpent 2 (Some 0%nat) [[originC; originA; originB]] = (Some top1, h1') /\
    getTopOriginsByTimeSpent 2 (Some 0%nat) [[originA; originB; originC]] = (Some top2, h2') /\
    h1' !! top1 = Some out1 /\
    h2' !! top2 = Some out2 /\
    Forall2 (fun x y => (monetizedTimeSpent (originVisitData x)
                         =? monetizedTimeSpent (originVisitData y))%float = true)
      out1 out2.
Proof.
  assert (H1 : [[originC; originA; originB]] !! 0%nat = Some [originC; originA; originB])
    by reflexivity.
  assert (H2 : [[originA; originB; originC]] !! 0%nat = Some [originA; originB; originC])
    by reflexivity.
  assert (Hp : [originC; originA; originB] ≡ₚ [originA; originB; originC]).
  { change ([originC] ++ [originA; originB] ≡ₚ [originA; originB] ++ [originC]).
    apply Permutation_app_comm. }
  assert (H3 : (2 <= length [originC; originA; originB])%nat) by (cbn; lia).
  assert (H4 : Forall valid_origin_data [originC; originA; originB])
    by (repeat constructor).
  split; [exact H1|]. split; [exact H2|]. split; [exact Hp|].
  split; [exact H3|]. split; [exact H4|].
  exact (getTopOriginsByTimeSpent_order_independent 2 0%nat 0%nat _ _ _ _ H1 H2 Hp H3 H4).
Defined.

(** ** Sorting by need ratio when no two ratios are close *)

Section SortedByKey.
Context {A : Type} (comparefn : A -> A -> float) (key : A -> Z).

Lemma sort_insert_sorted_by_key (x : A) (l : list A) :
  (forall y, y ∈ l -> (0 <? SortCompare comparefn x y)%float = (key y <? key x)) ->
  StronglySorted (fun a b => key a <= key b) l ->
  StronglySorted (fun a b => key a <= key b) (sort_insert comparefn x l).
Proof.
  intros Hx Hs. induction Hs as [|y l Hs IH Hy]; cbn [sort_insert].
  - repeat constructor.
  - rewrite Hx by left.
    destruct (Z.ltb_spec (key y) (key x)) as [Hlt | Hge].
    + constructor.
      * apply IH. intros z Hz. apply Hx. now right.
      * rewrite sort_insert_perm. constructor; [lia | assumption].
    + constructor; [now constructor|].
      constructor; [assumption|].
      eapply Forall_impl; [exact Hy|]. cbn. intros z Hz. lia.
Qed.

Lemma Array_sort_sorted_by_key (l : list A) :
  NoDup l ->
  (forall x y, x ∈ l -> y ∈ l -> x <> y ->
     (0 <? SortCompare comparefn x y)%float = (key y <? key x)) ->
  StronglySorted (fun a b => key a <= key b) (Array_sort comparefn l).
Proof.
  intros Hnd Hcmp. induction l as [|x l IH]; cbn; [constructor|].
  fold (Array_sort comparefn l). apply NoDup_cons in Hnd as [Hx Hnd].
  apply sort_insert_sorted_by_key.
  - intros y Hy. rewrite Array_sort_perm in Hy.
    apply Hcmp; [left | now right |]. intros ->. contradiction.
  - apply IH; [assumption|]. intros a b Ha Hb. apply Hcmp; now right.
Qed.

End SortedByKey.

Lemma ratio_asc_key (x y : OriginData) :
  ratio_is_number x -> ratio_is_number y -> (ratio_asc x y <-> ratio_key x <= ratio_key y).
Proof.
  intros Hx Hy. unfold ratio_asc, ratio_key. rewrite leb_F2Z by assumption.
  apply Z.leb_le.
Qed.

Lemma needsLove_test_far (x y : OriginData) :
  ratio_is_number x -> ratio_is_number y -> close_ratios x y = false ->
  (0 <? SortCompare needsLove x y)%float = (ratio_key y <? ratio_key x).
Proof.
  intros Hx Hy Hfar. rewrite SortCompare_pos, needsLove_unfold.
  unfold close_ratios in Hfar. rewrite Hfar.
  rewrite sub_pos_ltb by assumption. now apply ltb_F2Z.
Qed.

Lemma Array_sort_needsLove_sorted (l : list OriginData) :
  NoDup l -> Forall ratio_is_number l ->
  (forall x y, x ∈ l -> y ∈ l -> x <> y -> close_ratios x y = false) ->
  StronglySorted ratio_asc (Array_sort needsLove l).
Proof.
  intros Hnd Hn Hfar.
  apply (StronglySorted_impl_Forall ratio_is_number
           (fun a b => ratio_key a <= ratio_key b)).
  - intros x y Hx Hy. now apply ratio_asc_key.
  - now rewrite Array_sort_perm.
  - apply Array_sort_sorted_by_key; [assumption|].
    rewrite Forall_forall in Hn. intros x y Hx Hy Hne.
    apply needsLove_test_far; auto.
Qed.

(** When the provider's list holds distinct records whose need ratios are
    numbers and no two of which are close (the quotient of the two ratios is
    outside [[0.75, 1.0]] in both directions),
    [getTopOriginsThatNeedSomeLove] returns the front of the list sorted by
    ascending need ratio. *)
Theorem getTopOriginsThatNeedSomeLove_sorted_when_no_close_ratios
    (n : nat) (r : ref) (h : heap) (arr : list OriginData) :
  h !! r = Some arr ->
  (2 <= length arr)%nat ->
  NoDup arr ->
  Forall ratio_is_number arr ->
  (forall x y, x ∈ arr -> y ∈ arr -> x <> y -> close_ratios x y = false) ->
  exists (top : ref) (h' : heap) (out : list OriginData),
    getTopOriginsThatNeedSomeLove n (Some r) h = (Some top, h') /\
    h' !! top = Some out /\
    StronglySorted ratio_asc out /\
    length out = Nat.min n (length arr) /\
    exists rest, out ++ rest ≡ₚ arr /\ StronglySorted ratio_asc (out ++ rest).
Proof.
  intros Harr Hlen Hnd Hn Hfar.
  rewrite getTopOriginsThatNeedSomeLove_eq, (topOriginsBy_many _ _ _ _ _ Harr) by lia.
  set (sorted := Array_sort needsLove arr). set (k := Nat.min n (length arr)).
  assert (Hs : StronglySorted ratio_asc sorted) by now apply Array_sort_needsLove_sorted.
  exists (length h), (<[r := sorted]> h ++ [take k sorted]), (take k sorted).
  split; [reflexivity|]. split.
  { apply list_lookup_middle. now rewrite length_insert. }
  split.
  { apply (StronglySorted_app_1_l _ _ (drop k sorted)). now rewrite take_drop. }
  split.
  { rewrite length_take. unfold sorted. rewrite Array_sort_length. unfold k. lia. }
  exists (drop k sorted). rewrite take_drop. split; [apply Array_sort_perm | assumption].
Qed.

Lemma originC_originA_far_apart :
  NoDup [originC; originA] /\
  Forall ratio_is_number [originC; originA] /\
  (forall x y, x ∈ [originC; originA] -> y ∈ [originC; originA] -> x <> y ->
     close_ratios x y = false).
Proof.
  assert (Hne : originC <> originA).
  { intros H. apply (f_equal origin) in H. discriminate H. }
  split; [|split].
  - apply NoDup_cons. split; [|apply NoDup_singleton].
    intros H. apply list_elem_of_singleton in H. contradiction.
  - repeat constructor.
  - intros x y Hx Hy Hxy.
    apply elem_of_cons in Hx as [-> | Hx]; apply elem_of_cons in Hy as [-> | Hy];
      try apply list_elem_of_singleton in Hx as ->;
      try apply list_elem_of_singleton in Hy as ->;
      try contradiction; reflexivity.
Qed.

(** An instance: C(90, 5) with ratio 18 and A(100, 10) with ratio 10. *)
Lemma getTopOriginsThatNeedSomeLove_sorted_when_no_close_ratios_witness :
  [[originC; originA]] !! 0%nat = Some [originC; originA] /\
  (2 <= length [originC; originA])%nat /\
  NoDup [originC; originA] /\
  Forall ratio_is_number [originC; originA] /\
  (forall x y, x ∈ [originC; originA] -> y ∈ [originC; originA] -> x <> y ->
     close_ratios x y = false) /\
  exists (top : ref) (h' : heap) (out : list OriginData),
    getTopOriginsThatNeedSomeLove 1 (Some 0%nat) [[originC; originA]] = (Some top, h') /\
    h' !! top = Some out /\
    StronglySorted ratio_asc out /\
    length out = Nat.min 1 (length [originC; originA]) /\
    exists rest, out ++ rest ≡ₚ [originC; originA] /\ StronglySorted ratio_asc (out ++ rest).
Proof.
  assert (H0 : [[originC; originA]] !! 0%nat = Some [originC; originA]) by reflexivity.
  assert (H1 : (2 <= length [originC; originA])%nat) by (cbn; lia).
  destruct originC_originA_far_apart as (Hnd & Hn & Hfar).
  split; [exact H0|]. split; [exact H1|]. split; [exact Hnd|].
  split; [exact Hn|]. split; [exact Hfar|].
  exact (getTopOriginsThatNeedSomeLove_sorted_when_no_close_ratios
           1 0%nat _ _ H0 H1 Hnd Hn Hfar).
Defined.

(** ** Percentages and payments on zero and not-a-number inputs *)

Lemma zero_div_cases (z t : float) :
  (z =? 0)%float = true ->
  (z / t)%float = nan \/ (z / t)%float = zero \/ (z / t)%float = neg_zero.
Proof.
  intros Hz. rewrite FloatAxioms.eqb_spec in Hz.
  change (Prim2SF 0) with (S754_zero false) in Hz.
  assert (Hq : Prim2SF (z / t) = S754_nan \/ exists s, Prim2SF (z / t) = S754_zero s).
  { rewrite div_spec. unfold SF64div.
    destruct (Prim2SF z) as [sz | [] | | [] mz ez]; try discriminate Hz.
    destruct (Prim2SF t) as [st | st | | st mt et]; cbn [SFdiv]; eauto. }
  rewrite <- (SF2Prim_Prim2SF (z / t)).
  destruct Hq as [-> | [[] ->]]; auto.
Qed.

Lemma toPercent_zero_share (Number_toString : float -> string) (z t : float) :
  (z =? 0)%float = true -> toPercent Number_toString (z / t) = VStr "0.00".
Proof.
  intros Hz. destruct (zero_div_cases z t Hz) as [-> | [-> | ->]]; reflexivity.
Qed.

Section ZeroShare.
Variable Number_toString : float -> string.

(** A zero numerator gives ["0.00"] whatever the denominator is, also when
    the denominator is zero or not-a-number ([unNaN] turns [0 / 0] into
    [0]); the two functions with a zero test return the number [0] when their
    denominator is zero. *)
Theorem zero_share_is_zero_percent :
  (forall (d : OriginData) (stats : OriginStats),
     (monetizedTimeSpent (originVisitData d) =? 0)%float = true ->
     getPercentTimeSpentAtOriginOutOfTotal Number_toString (Some d) (Some stats)
       = VStr "0.00") /\
  (forall (d : OriginData) (stats : OriginStats),
     (numberOfVisits (originVisitData d) =? 0)%float = true ->
     getPercentVisitsToOriginOutOfTotal Number_toString (Some d) (Some stats)
       = if (totalVisits stats =? 0)%float then VNum 0%float else VStr "0.00") /\
  (forall stats : OriginStats,
     (totalMonetizedTimeSpent stats =? 0)%float = true ->
     getMonetizedTimeSpentPercent Number_toString (Some stats)
       = if (totalTimeSpent stats =? 0)%float then VNum 0%float else VStr "0.00").
Proof.
  split; [|split].
  - intros d stats Hz. unfold getPercentTimeSpentAtOriginOutOfTotal.
    now apply toPercent_zero_share.
  - intros d stats Hz. unfold getPercentVisitsToOriginOutOfTotal.
    destruct (totalVisits stats =? 0)%float; [reflexivity|].
    now apply toPercent_zero_share.
  - intros stats Hz. unfold getMonetizedTimeSpentPercent.
    destruct (totalTimeSpent stats =? 0)%float; [reflexivity|].
    now apply toPercent_zero_share.
Qed.

End ZeroShare.

(** Multiplying by a finite non-zero constant neither creates nor removes
    not-a-number. *)

Lemma shr_fexp_nonneg (m e : Z) (l : location) :
  0 <= m -> 0 <= shr_m (fst (shr_fexp prec emax m e l)).
Proof.
  intros Hm. unfold shr_fexp, shr.
  destruct (fexp prec emax (Zdigits2 m + e) - e) as [| p | p];
    cbn [fst]; rewrite ?shr_m_of_loc; try assumption.
  apply iter_shr_1_nonneg. now rewrite shr_m_of_loc.
Qed.

Lemma round_nearest_even_nonneg (m : Z) (l : location) :
  0 <= m -> 0 <= round_nearest_even m l.
Proof.
  intros Hm. destruct l as [| []]; cbn [round_nearest_even]; try lia.
  destruct (Z.even m); lia.
Qed.

Lemma binary_round_aux_not_nan (s : bool) (m e : Z) (l : location) :
  0 <= m -> SFis_nan (binary_round_aux prec emax s m e l) = false.
Proof.
  intros Hm. unfold binary_round_aux.
  pose proof (shr_fexp_nonneg m e l Hm) as H1.
  destruct (shr_fexp prec emax m e l) as [mrs1 e1]. cbn [fst] in H1.
  pose proof (round_nearest_even_nonneg _ (loc_of_shr_record mrs1) H1) as Hr.
  pose proof (shr_fexp_nonneg _ e1 loc_Exact Hr) as H2.
  destruct (shr_fexp prec emax _ e1 loc_Exact) as [mrs2 e2]. cbn [fst] in H2.
  destruct (shr_m mrs2); try lia; [reflexivity|].
  destruct (e2 <=? emax - prec); reflexivity.
Qed.

Lemma mul_finite_is_nan (x c : float) (sc : bool) (mc : positive) (ec : Z) :
  Prim2SF c = S754_finite sc mc ec -> is_nan (x * c) = is_nan x.
Proof.
  intros Hc. rewrite !is_nan_Prim2SF, mul_spec, Hc. unfold SF64mul.
  destruct (Prim2SF x) as [sx | sx | | sx mx ex]; cbn [SFmul SFis_nan]; try reflexivity.
  apply binary_round_aux_not_nan. lia.
Qed.

Lemma payment_is_nan (t : float) :
  is_nan (t * STREAM_RATE_PER_MILLISECOND) = is_nan t.
Proof.
  destruct (Prim2SF STREAM_RATE_PER_MILLISECOND) as [| | | s m e] eqn:E;
    try discriminate E.
  exact (mul_finite_is_nan t _ s m e E).
Qed.

Section PaymentsAgree.
Variable Number_toString : float -> string.

(** The two payment estimates agree on every time that is a number, and
    differ exactly when the time is not-a-number: the origin-based one then
    returns ["0.00"] and the time-based one ["NaN"]. *)
Theorem payment_estimates_agree_on_numbers :
  (forall d : OriginData,
     getEstimatedPaymentForOriginUSD Number_toString (Some d) =
     if is_nan (monetizedTimeSpent (originVisitData d)) then VStr "0.00"
     else getEstimatedPaymentForTimeInUSD Number_toString
            (monetizedTimeSpent (originVisitData d))) /\
  (forall d : OriginData,
     is_nan (monetizedTimeSpent (originVisitData d)) = true ->
     getEstimatedPaymentForTimeInUSD Number_toString
       (monetizedTimeSpent (originVisitData d)) = VStr "NaN" /\
     getEstimatedPaymentForOriginUSD Number_toString (Some d) = VStr "0.00").
Proof.
  assert (Hcases : forall d : OriginData,
     getEstimatedPaymentForOriginUSD Number_toString (Some d) =
     if is_nan (monetizedTimeSpent (originVisitData d)) then VStr "0.00"
     else getEstimatedPaymentForTimeInUSD Number_toString
            (monetizedTimeSpent (originVisitData d))).
  { intros d. rewrite getEstimatedPaymentForOriginUSD_cases. cbv zeta.
    rewrite payment_is_nan. reflexivity. }
  split; [exact Hcases|].
  intros d Hn. split; [|now rewrite Hcases, Hn].
  unfold getEstimatedPaymentForTimeInUSD.
  rewrite Number_toFixed_nan; [reflexivity|].
  now rewrite Number_parseFloat_is_nan, payment_is_nan.
Qed.

End PaymentsAgree.

(** ** The three results of [hasUsedWebMonetizationProvider] *)


(** ** Not-a-number inputs of the percentage helpers *)

Lemma div_nan (x y : float) :
  is_nan x = true \/ is_nan y = true -> (x / y)%float = nan.
Proof.
  intros H. apply is_nan_eq_nan. rewrite !is_nan_Prim2SF in *.
  rewrite div_spec. unfold SF64div.
  destruct H as [H | H].
  - destruct (Prim2SF x); try discriminate H. reflexivity.
  - destruct (Prim2SF y); try discriminate H. now destruct (Prim2SF x).
Qed.

Section NanShare.
Variable Number_toString : float -> string.

(** When the numerator or the denominator is not-a-number the three
    percentage helpers return ["0.00"]: [unNaN] replaces the not-a-number
    quotient by [0] before formatting, so none of them returns ["NaN"]. *)
Theorem nan_share_is_zero_percent :
  (forall (d : OriginData) (stats : OriginStats),
     is_nan (monetizedTimeSpent (originVisitData d)) = true \/
     is_nan (totalTimeSpent stats) = true ->
     getPercentTimeSpentAtOriginOutOfTotal Number_toString (Some d) (Some stats)
       = VStr "0.00") /\
  (forall (d : OriginData) (stats : OriginStats),
     is_nan (numberOfVisits (originVisitData d)) = true \/
     is_nan (totalVisits stats) = true ->
     getPercentVisitsToOriginOutOfTotal Number_toString (Some d) (Some stats)
       = if (totalVisits stats =? 0)%float then VNum 0%float else VStr "0.00") /\
  (forall stats : OriginStats,
     is_nan (totalMonetizedTimeSpent stats) = true \/
     is_nan (totalTimeSpent stats) = true ->
     getMonetizedTimeSpentPercent Number_toString (Some stats)
       = if (totalTimeSpent stats =? 0)%float then VNum 0%float else VStr "0.00").
Proof.
  split; [|split].
  - intros d stats H. unfold getPercentTimeSpentAtOriginOutOfTotal.
    now rewrite (div_nan _ _ H).
  - intros d stats H. unfold getPercentVisitsToOriginOutOfTotal.
    destruct (totalVisits stats =? 0)%float; [reflexivity|].
    now rewrite (div_nan _ _ H).
  - intros stats H. unfold getMonetizedTimeSpentPercent.
    destruct (totalTimeSpent stats =? 0)%float; [reflexivity|].
    now rewrite (div_nan _ _ H).
Qed.

End NanShare.
